(** * gogo: a project scaffolding generator

  A shallow embedding of [main.go].  The program reads one project name
  from the command line, creates a directory tree under a new root
  directory, writes six files rendered from string templates, runs
  [git init] in the new directory and prints a confirmation line.

  Layout of this development:
  - [GoStrings]  : the pieces of Go's [strings] and [fmt] the program uses;
  - [Filepath]   : [filepath.Clean] and [filepath.Join] (Unix separator);
  - [Templates]  : the six content generators of the source;
  - [Host]       : the host file system and process state the program acts on;
  - [Gogo]       : [createFile], [initGit] and [main];
  - the theorems about them. *)

From Stdlib Require Import Ascii.
From stdpp Require Import base option list strings gmap fin_maps.

Local Open Scope char_scope.
Local Open Scope stdpp_scope.

(** ** Strings as Go sees them *)

Module GoStrings.

Definition tab : string := String "009" "".
Definition nl : string := String "010" "".
Definition dq : string := String "034" "".

(** Every line of a raw string literal of the source ends with a line
    feed; [unlines] puts it back after each line. *)
Definition unlines (ls : list string) : string :=
  foldr (λ l acc, l +:+ nl +:+ acc) "" ls.

(** [strings.Split(s, string(sep))]: always at least one field. *)
Fixpoint split (sep : ascii) (s : string) : list string :=
  match s with
  | EmptyString => [""]
  | String c r =>
      if Ascii.eqb c sep then "" :: split sep r
      else match split sep r with
           | h :: t => String c h :: t
           | [] => [String c ""]
           end
  end.

(** [strings.Join(elems, sep)]. *)
Fixpoint join (sep : string) (elems : list string) : string :=
  match elems with
  | [] => ""
  | [e] => e
  | e :: es => e +:+ sep +:+ join sep es
  end.

(** [strings.HasPrefix(s, p)]. *)
Fixpoint has_prefix (p s : string) : bool :=
  match p, s with
  | EmptyString, _ => true
  | String a p', String b s' => Ascii.eqb a b && has_prefix p' s'
  | String _ _, EmptyString => false
  end.

(** [strings.Contains(s, sub)]. *)
Fixpoint containsb (sub s : string) : bool :=
  has_prefix sub s ||
  match s with
  | EmptyString => false
  | String _ s' => containsb sub s'
  end.

(** The same as a proposition: [sub] occurs somewhere inside [s]. *)
Definition contains (sub s : string) : Prop :=
  ∃ l r : string, s = l +:+ sub +:+ r.

Fixpoint all_chars (ok : ascii → bool) (s : string) : bool :=
  match s with
  | EmptyString => true
  | String c r => ok c && all_chars ok r
  end.

(** [c] does not occur in [s]. *)
Definition lacks (c : ascii) (s : string) : bool :=
  all_chars (λ a, negb (Ascii.eqb a c)) s.

(** Whether the last character of [s] is [c]. *)
Fixpoint ends_with (c : ascii) (s : string) : bool :=
  match s with
  | EmptyString => false
  | String a EmptyString => Ascii.eqb a c
  | String _ r => ends_with c r
  end.

(** What [fmt] prints for operands left over after the format is used up. *)
Definition extra_operands (a : list string) : string :=
  match a with
  | [] => ""
  | _ => "%!(EXTRA " +:+ join ", " (map (λ x, "string=" +:+ x) a) +:+ ")"
  end.

(** [fmt.Sprintf] for string operands.  The verbs the program uses are
    interpreted: [%s] and [%v] print the next operand, [%%] prints a
    percent sign.  A missing operand, an unknown verb and left-over
    operands print what [fmt] prints for them.  Flags, widths and the
    other verbs ([%q], [%x]) are not modelled. *)
Fixpoint Sprintf (format : string) (a : list string) : string :=
  match format with
  | EmptyString => extra_operands a
  | String c rest =>
      if Ascii.eqb c "%" then
        match rest with
        | EmptyString => "%!(NOVERB)"
        | String v rest' =>
            if Ascii.eqb v "%" then String "%" (Sprintf rest' a)
            else
              match a with
              | [] => "%!" +:+ String v "(MISSING)" +:+ Sprintf rest' []
              | x :: a' =>
                  if Ascii.eqb v "s" || Ascii.eqb v "v"
                  then x +:+ Sprintf rest' a'
                  else "%!" +:+ String v "(string=" +:+ x +:+ ")"
                            +:+ Sprintf rest' a'
              end
        end
      else String c (Sprintf rest a)
  end.

End GoStrings.

(** ** path/filepath on a Unix host *)

Module Filepath.
Import GoStrings.

Definition Separator : ascii := "/".

(** One step of [Clean] over the path elements seen so far (kept in
    reverse): empty and [.] elements disappear, [..] removes the element
    before it, is dropped at the root, and is kept at the start of a
    relative path. *)
Definition clean_step (rooted : bool) (acc : list string) (e : string)
  : list string :=
  if String.eqb e "" || String.eqb e "." then acc
  else if String.eqb e ".." then
    match acc with
    | [] => if rooted then [] else [e]
    | top :: below => if String.eqb top ".." then e :: acc else below
    end
  else e :: acc.

(** [filepath.Clean]: the shortest path name equivalent to [path] by
    purely lexical processing. *)
Definition Clean (path : string) : string :=
  let rooted := has_prefix "/" path in
  let kept := rev (fold_left (clean_step rooted) (split Separator path) []) in
  let body := join "/" kept in
  if rooted then "/" +:+ body
  else if String.eqb body "" then "." else body.

(** [filepath.Join]: leading empty elements are skipped, the rest is
    joined with the separator and cleaned; no element at all gives the
    empty string. *)
Fixpoint Join (elem : list string) : string :=
  match elem with
  | [] => ""
  | e :: es => if String.eqb e "" then Join es else Clean (join "/" elem)
  end.

End Filepath.

(** ** The content generators of [main.go] *)

Module Templates.
Import GoStrings.

Definition gitignoreContent : string := unlines [
  "# Binaries for programs and plugins";
  "*.exe";
  "*.dll";
  "*.so";
  "*.dylib";
  "";
  "# Output of the go coverage tool, specifically when used with LiteIDE";
  "*.out";
  "";
  "# Dependency directories (vendor)";
  "vendor/";
  "";
  "# IDE/editor configurations";
  ".idea/";
  ".vscode/";
  "*.swp"
].

Definition mainGoContentTemplate : string := unlines [
  "package main";
  "";
  "import (";
  tab +:+ dq +:+ "fmt" +:+ dq;
  tab +:+ dq +:+ "log" +:+ dq;
  "";
  tab +:+ dq +:+ "%s/pkg/config" +:+ dq;
  tab +:+ dq +:+ "%s/pkg/logger" +:+ dq;
  ")";
  "";
  "func main() {";
  tab +:+ "// Load configuration";
  tab +:+ "cfg := config.LoadConfig()";
  "";
  tab +:+ "// Initialize logger";
  tab +:+ "log, err := logger.NewLogger(cfg.LogFile)";
  tab +:+ "if err != nil {";
  tab +:+ tab +:+ "log.Fatalf(" +:+ dq +:+ "Failed to initialize logger: %%v" +:+ dq +:+ ", err)";
  tab +:+ "}";
  "";
  tab +:+ "log.Info().Msg(" +:+ dq +:+ "Starting the application" +:+ dq +:+ ")";
  tab +:+ "fmt.Println(" +:+ dq +:+ "Server Port:" +:+ dq +:+ ", cfg.ServerPort)";
  "}"
].

Definition envFileContent : string := unlines [
  "APP_NAME=myapi";
  "SERVER_PORT=8080";
  "LOG_FILE=logs/myapi.log";
  "DB_USER=root";
  "DB_PASSWORD=password";
  "DB_HOST=localhost";
  "DB_PORT=5432";
  "DB_NAME=mydatabase"
].

Definition makefileContentTemplate : string := unlines [
  "run:";
  tab +:+ "go run cmd/%s/main.go";
  "";
  "test:";
  tab +:+ "go test ./...";
  "";
  "migrate:";
  tab +:+ "migrate -path ./migrations -database $(DB_URL) up"
].

Definition loggerGoContent : string := unlines [
  "package logger";
  "";
  "import (";
  tab +:+ dq +:+ "os" +:+ dq;
  "";
  tab +:+ dq +:+ "github.com/rs/zerolog" +:+ dq;
  tab +:+ dq +:+ "github.com/rs/zerolog/log" +:+ dq;
  ")";
  "";
  "// NewLogger creates a new logger that logs to the specified file";
  "func NewLogger(logFile string) (" +:+ "*zerolog.Logger, error) {";
  tab +:+ "file, err := os.Create(logFile)";
  tab +:+ "if err != nil {";
  tab +:+ tab +:+ "return nil, err";
  tab +:+ "}";
  "";
  tab +:+ "zerolog.TimeFieldFormat = zerolog.TimeFormatUnix";
  tab +:+ "multi := zerolog.MultiLevelWriter(os.Stdout, file)";
  "";
  tab +:+ "logger := zerolog.New(multi).With().Timestamp().Logger()";
  tab +:+ "log.Logger = logger";
  tab +:+ "return &logger, nil";
  "}"
].

Definition configGoContent : string := unlines [
  "package config";
  "";
  "import (";
  tab +:+ dq +:+ "log" +:+ dq;
  tab +:+ dq +:+ "os" +:+ dq;
  "";
  tab +:+ dq +:+ "github.com/spf13/viper" +:+ dq;
  ")";
  "";
  "// Config holds the configuration for the application";
  "type Config struct {";
  tab +:+ "AppName    string `mapstructure:" +:+ dq +:+ "APP_NAME" +:+ dq +:+ "`";
  tab +:+ "ServerPort string `mapstructure:" +:+ dq +:+ "SERVER_PORT" +:+ dq +:+ "`";
  tab +:+ "LogFile    string `mapstructure:" +:+ dq +:+ "LOG_FILE" +:+ dq +:+ "`";
  tab +:+ "DBUser     string `mapstructure:" +:+ dq +:+ "DB_USER" +:+ dq +:+ "`";
  tab +:+ "DBPassword string `mapstructure:" +:+ dq +:+ "DB_PASSWORD" +:+ dq +:+ "`";
  tab +:+ "DBHost     string `mapstructure:" +:+ dq +:+ "DB_HOST" +:+ dq +:+ "`";
  tab +:+ "DBPort     string `mapstructure:" +:+ dq +:+ "DB_PORT" +:+ dq +:+ "`";
  tab +:+ "DBName     string `mapstructure:" +:+ dq +:+ "DB_NAME" +:+ dq +:+ "`";
  "}";
  "";
  "// LoadConfig reads the .env file and returns the application configuration";
  "func LoadConfig() *Config {";
  tab +:+ "viper.SetConfigFile(" +:+ dq +:+ ".env" +:+ dq +:+ ")";
  tab +:+ "if err := viper.ReadInConfig(); err != nil {";
  tab +:+ tab +:+ "log.Fatalf(" +:+ dq +:+ "Error loading .env file: %%v" +:+ dq +:+ ", err)";
  tab +:+ "}";
  "";
  tab +:+ "var cfg Config";
  tab +:+ "if err := viper.Unmarshal(&cfg); err != nil {";
  tab +:+ tab +:+ "log.Fatalf(" +:+ dq +:+ "Error unmarshalling config: %%v" +:+ dq +:+ ", err)";
  tab +:+ "}";
  "";
  tab +:+ "return &cfg";
  "}"
].


(** [mainGoContent]: the project name fills both [%s]. *)
Definition mainGoContent (projectName : string) : string :=
  Sprintf mainGoContentTemplate [projectName; projectName].

(** [makefileContent]: the project name fills the single [%s]. *)
Definition makefileContent (projectName : string) : string :=
  Sprintf makefileContentTemplate [projectName].

End Templates.

(** ** The host: file system, working directory and the two output streams *)

Module Host.
Import GoStrings.

(** A node of the file tree.  Permissions, owners and links are left out:
    every path the process names is one it may read and write, and the
    only ways a call of package [os] fails are the ones that depend on the
    shape of the tree (a missing parent, an entry that is there already, a
    file where a directory is needed, a directory where a file is needed).
    A full disk and the like are not modelled. *)
Inductive node : Type :=
| Dir
| File (content : string).

Global Instance node_eq_dec : EqDecision node.
Proof. solve_decision. Defined.

(** The file tree maps an absolute path, given by its elements from the
    root directory [[]], to the node found there. *)
Record World : Type := mkWorld {
  cwd : list string;
  fs : gmap (list string) node;
  stdout : string;
  stderr : string
}.

Inductive errno : Type := ENOENT | EEXIST | ENOTDIR | EISDIR | EBADF.

Definition errno_text (e : errno) : string :=
  match e with
  | ENOENT => "no such file or directory"
  | EEXIST => "file exists"
  | ENOTDIR => "not a directory"
  | EISDIR => "is a directory"
  | EBADF => "bad file descriptor"
  end.

(** Go's [error] values the program can meet: [*fs.PathError] from package
    [os], and whatever [os/exec] reports for the external command. *)
Inductive error : Type :=
| PathError (Op Path : string) (Err : errno)
| ExecError (msg : string).

Definition Error (e : error) : string :=
  match e with
  | PathError op path err => op +:+ " " +:+ path +:+ ": " +:+ errno_text err
  | ExecError msg => msg
  end.

(** A process either goes on with a value or has called [os.Exit]. *)
Inductive outcome (A : Type) : Type :=
| Returned (a : A)
| Exited (status : nat).
Global Arguments Returned {A} a.
Global Arguments Exited {A} status.

Definition Proc (A : Type) : Type := World → outcome A * World.

Global Instance Proc_ret : MRet Proc := λ A a w, (Returned a, w).
Global Instance Proc_bind : MBind Proc := λ A B f m w,
  match m w with
  | (Returned a, w') => f a w'
  | (Exited st, w') => (Exited st, w')
  end.

(** [for _, x := range xs { body }] *)
Fixpoint for_range {A : Type} (xs : list A) (body : A → Proc unit) : Proc unit :=
  match xs with
  | [] => mret tt
  | x :: xs' => _ ← body x; for_range xs' body
  end.

(** *** Path resolution *)

(** One element further from [cur]. *)
Definition step (cur : list string) (e : string) : list string :=
  if String.eqb e "." then cur
  else if String.eqb e ".." then removelast cur
  else cur ++ [e].

(** Walk the elements [es] from [cur].  An element can only be looked up
    inside a directory; empty elements (doubled or trailing separators)
    are skipped.  The node the walk ends on need not exist. *)
Fixpoint namei (t : gmap (list string) node) (cur : list string)
    (es : list string) : errno + list string :=
  match es with
  | [] => inr cur
  | e :: es' =>
      if String.eqb e "" then namei t cur es'
      else match t !! cur with
           | Some Dir => namei t (step cur e) es'
           | Some (File _) => inl ENOTDIR
           | None => inl ENOENT
           end
  end.

(** Where a walk starts: the root for a rooted name, else the working
    directory. *)
Definition start (w : World) (name : string) : list string :=
  if has_prefix "/" name then [] else cwd w.

Definition resolve (w : World) (name : string) : errno + list string :=
  if String.eqb name "" then inl ENOENT
  else namei (fs w) (start w name) (split "/" name).

Definition set_fs (t : gmap (list string) node) (w : World) : World :=
  mkWorld (cwd w) t (stdout w) (stderr w).

(** *** Package os *)

(** [os.Mkdir(name, perm)]: the parent must be a directory and nothing
    may exist under [name] yet. *)
Definition os_Mkdir (name : string) : Proc (option error) := λ w,
  match resolve w name with
  | inl e => (Returned (Some (PathError "mkdir" name e)), w)
  | inr p =>
      match fs w !! p with
      | Some _ => (Returned (Some (PathError "mkdir" name EEXIST)), w)
      | None => (Returned None, set_fs (<[p := Dir]> (fs w)) w)
      end
  end.

(** The walk of [os.MkdirAll]: every directory on the way that is missing
    is created; a file on the way stops it, and what was created before
    stays. *)
Fixpoint mkdir_all (t : gmap (list string) node) (cur : list string)
    (es : list string) : option errno * gmap (list string) node :=
  match es with
  | [] => (None, t)
  | e :: es' =>
      if String.eqb e "" then mkdir_all t cur es'
      else match t !! cur with
           | Some Dir =>
               let nxt := step cur e in
               match t !! nxt with
               | Some Dir => mkdir_all t nxt es'
               | Some (File _) => (Some ENOTDIR, t)
               | None => mkdir_all (<[nxt := Dir]> t) nxt es'
               end
           | Some (File _) => (Some ENOTDIR, t)
           | None => (Some ENOENT, t)
           end
  end.

(** [os.MkdirAll(path, perm)]. *)
Definition os_MkdirAll (path : string) : Proc (option error) := λ w,
  if String.eqb path "" then (Returned (Some (PathError "mkdir" path ENOENT)), w)
  else
    match mkdir_all (fs w) (start w path) (split "/" path) with
    | (Some e, t) => (Returned (Some (PathError "mkdir" path e)), set_fs t w)
    | (None, t) => (Returned None, set_fs t w)
    end.

(** [os.Create(name)]: the file is created, or truncated when it exists;
    a directory cannot be opened for writing.  The open file is
    represented by the path it was opened at. *)
Definition os_Create (name : string) : Proc (list string + error) := λ w,
  match resolve w name with
  | inl e => (Returned (inr (PathError "open" name e)), w)
  | inr p =>
      match fs w !! p with
      | Some Dir => (Returned (inr (PathError "open" name EISDIR)), w)
      | _ => (Returned (inl p), set_fs (<[p := File ""]> (fs w)) w)
      end
  end.

(** [file.WriteString(s)] on a file opened by [os.Create]: the text goes
    after what was written through this handle before. *)
Definition File_WriteString (file : list string) (s : string)
  : Proc (option error) := λ w,
  match fs w !! file with
  | Some (File old) =>
      (Returned None, set_fs (<[file := File (old +:+ s)]> (fs w)) w)
  | _ => (Returned (Some (PathError "write" (join "/" file) EBADF)), w)
  end.

(** [file.Close()]. *)
Definition File_Close (file : list string) : Proc unit := mret tt.

(** *** Packages log and fmt *)

(** [log.Fatal(msg)]: the message goes to standard error as one line (a
    line feed is added unless the message ends with one) and the process
    exits with status 1.  The date and time the standard logger puts in
    front of the line are left out. *)
Definition log_line (msg : string) : string :=
  if ends_with "010" msg then msg else msg +:+ nl.

Definition log_Fatal {A : Type} (msg : string) : Proc A := λ w,
  (Exited 1, mkWorld (cwd w) (fs w) (stdout w) (stderr w +:+ log_line msg)).

Definition log_Fatalf {A : Type} (format : string) (a : list string) : Proc A :=
  log_Fatal (Sprintf format a).

Definition fmt_Printf (format : string) (a : list string) : Proc unit := λ w,
  (Returned tt, mkWorld (cwd w) (fs w) (stdout w +:+ Sprintf format a) (stderr w)).

End Host.

(** ** The program *)

Module Gogo.
Import GoStrings Filepath Templates Host.

Section Program.

(** What running [git init] does to the file tree when started in the
    directory [dir]: an error message if the command fails, and the
    tree it leaves.  The tool is external to the program. *)
Variable git : list string → gmap (list string) node
               → option string * gmap (list string) node.

(** [createFile]: create the file and write the content into it. *)
Definition createFile (filePath content : string) : Proc unit :=
  r ← os_Create filePath;
  match r with
  | inr err =>
      log_Fatalf "Failed to create file %s: %v" [filePath; Error err]
  | inl file =>
      err ← File_WriteString file content;
      _ ← match err with
          | Some e =>
              log_Fatalf "Failed to write to file %s: %v" [filePath; Error e]
          | None => mret tt
          end;
      File_Close file
  end.

(** [cmd.Run()] for [exec.Command("git", "init")] with [cmd.Dir = dir]:
    the command is started in [dir], which has to be a directory; its
    output is discarded. *)
Definition exec_git_init (dir : string) : Proc (option error) := λ w,
  match resolve w dir with
  | inl e => (Returned (Some (PathError "chdir" dir e)), w)
  | inr d =>
      match fs w !! d with
      | Some Dir =>
          match git d (fs w) with
          | (Some msg, t) => (Returned (Some (ExecError msg)), set_fs t w)
          | (None, t) => (Returned None, set_fs t w)
          end
      | Some (File _) => (Returned (Some (PathError "chdir" dir ENOTDIR)), w)
      | None => (Returned (Some (PathError "chdir" dir ENOENT)), w)
      end
  end.

(** [initGit]: initialize a repository, no commit and no add. *)
Definition initGit (projectDir : string) : Proc unit :=
  err ← exec_git_init projectDir;
  match err with
  | Some e => log_Fatalf "Failed to initialize Git: %v" [Error e]
  | None => mret tt
  end.

(** The folder structure, relative to the project directory. *)
Definition dirs (projectName : string) : list string :=
  [ Join ["cmd"; projectName];
    "internal/handlers";
    "internal/services";
    "internal/repository";
    "internal/models/api";
    "internal/models/db";
    "internal/middlewares";
    "internal/utils";
    "pkg/logger";
    "pkg/config";
    "tests/unit";
    "tests/integration";
    "migrations";
    "docs" ].

(** [main], with [os.Args] as [args]. *)
Definition main (args : list string) : Proc unit :=
  if (length args <? 2)%nat then
    log_Fatal "Please provide a project name as an argument."
  else
    let projectName := nth 1 args "" in
    err ← os_Mkdir projectName;
    _ ← match err with
        | Some e =>
            log_Fatalf "Failed to create project directory: %v" [Error e]
        | None => mret tt
        end;
    _ ← for_range (dirs projectName) (λ dir,
          let dirPath := Join [projectName; dir] in
          err ← os_MkdirAll dirPath;
          match err with
          | Some e =>
              log_Fatalf "Failed to create directory %s: %v" [dirPath; Error e]
          | None => mret tt
          end);
    _ ← createFile (Join [projectName; Join ["cmd"; projectName; "main.go"]])
                   (mainGoContent projectName);
    _ ← createFile (Join [projectName; ".env"]) envFileContent;
    _ ← createFile (Join [projectName; ".gitignore"]) gitignoreContent;
    _ ← createFile (Join [projectName; "Makefile"]) (makefileContent projectName);
    _ ← createFile (Join [projectName; Join ["pkg"; "logger"; "logger.go"]])
                   loggerGoContent;
    _ ← createFile (Join [projectName; Join ["pkg"; "config"; "config.go"]])
                   configGoContent;
    _ ← initGit projectName;
    fmt_Printf ("Project %s has been created successfully!" +:+ nl) [projectName].

(** The exit status of the process and the world it leaves: status 0
    when [main] returns. *)
Definition run (args : list string) (w : World) : nat * World :=
  match main args w with
  | (Returned _, w') => (0, w')
  | (Exited st, w') => (st, w')
  end.

End Program.

End Gogo.

(** ** Vocabulary of the specification *)

Module Spec.
Import GoStrings Filepath Templates Host Gogo.

(** *** Project names *)

Definition is_digit (c : ascii) : bool :=
  let n := nat_of_ascii c in (48 <=? n)%nat && (n <=? 57)%nat.
Definition is_upper (c : ascii) : bool :=
  let n := nat_of_ascii c in (65 <=? n)%nat && (n <=? 90)%nat.
Definition is_lower (c : ascii) : bool :=
  let n := nat_of_ascii c in (97 <=? n)%nat && (n <=? 122)%nat.

(** The characters Go accepts in an element of a module path: ASCII
    letters and digits, and [-], [_], [.], [~]. *)
Definition name_char (c : ascii) : bool :=
  is_digit c || is_upper c || is_lower c
  || Ascii.eqb c "-" || Ascii.eqb c "_" || Ascii.eqb c "." || Ascii.eqb c "~".

(** A valid project name: usable as one directory name (not empty, not
    [.] or [..], no separator) and made of import-path characters. *)
Definition valid_name (name : string) : bool :=
  negb (String.eqb name "") && negb (String.eqb name ".")
  && negb (String.eqb name "..") && all_chars name_char name.

(** A plain path element: names an entry of its directory. *)
Definition plain (e : string) : bool :=
  negb (String.eqb e "") && negb (String.eqb e ".")
  && negb (String.eqb e "..") && lacks "/" e.

(** *** The manifest of section 6, as path elements below the project root *)

Definition manifest_dirs (name : string) : list (list string) :=
  [ ["cmd"; name];
    ["internal"; "handlers"];
    ["internal"; "services"];
    ["internal"; "repository"];
    ["internal"; "models"; "api"];
    ["internal"; "models"; "db"];
    ["internal"; "middlewares"];
    ["internal"; "utils"];
    ["pkg"; "logger"];
    ["pkg"; "config"];
    ["tests"; "unit"];
    ["tests"; "integration"];
    ["migrations"];
    ["docs"] ].


(** The six generated files. *)
Inductive output : Type :=
| EntryPoint | EnvFile | IgnoreFile | BuildHelper | LoggerStub | ConfigStub.

Definition outputs : list output :=
  [EntryPoint; EnvFile; IgnoreFile; BuildHelper; LoggerStub; ConfigStub].

Definition output_path (o : output) (name : string) : list string :=
  match o with
  | EntryPoint => ["cmd"; name; "main.go"]
  | EnvFile => [".env"]
  | IgnoreFile => [".gitignore"]
  | BuildHelper => ["Makefile"]
  | LoggerStub => ["pkg"; "logger"; "logger.go"]
  | ConfigStub => ["pkg"; "config"; "config.go"]
  end.

(** The generator [main] calls for each of them. *)
Definition content (o : output) (name : string) : string :=
  match o with
  | EntryPoint => mainGoContent name
  | EnvFile => envFileContent
  | IgnoreFile => gitignoreContent
  | BuildHelper => makefileContent name
  | LoggerStub => loggerGoContent
  | ConfigStub => configGoContent
  end.

(** The outputs whose generator takes the project name, and the others. *)
Definition named_outputs : list output := [EntryPoint; BuildHelper].
Definition static_outputs : list output :=
  [EnvFile; IgnoreFile; LoggerStub; ConfigStub].

(** What the manifest puts at the path [p] below the project root: a
    directory when [p] leads to a manifest directory, a file with its
    content when [p] is one of the six files. *)
Definition manifest_node (name : string) (p : list string) (n : node) : Prop :=
  (n = Dir ∧ ∃ d, d ∈ manifest_dirs name ∧ p `prefix_of` d)
  ∨ (∃ o, p = output_path o name ∧ n = File (content o name)).

(** Where the project goes: the entry [name] of the working directory. *)
Definition project_root (w : World) (name : string) : list string :=
  cwd w ++ [name].

(** The file tree [t] while the project [name] is being built from the
    world [w]: outside the project directory nothing has changed, the
    project directory exists, and below it there are the directories
    leading to the entries of [ds] and the files of [os], nothing else. *)
Definition built (w : World) (name : string) (ds : list (list string))
    (os : list output) (t : gmap (list string) node) : Prop :=
  let root := cwd w ++ [name] in
  (∀ q, ¬ root `prefix_of` q → t !! q = fs w !! q)
  ∧ t !! root = Some Dir
  ∧ (∀ p n, p ≠ [] →
       t !! (root ++ p) = Some n ↔
         (n = Dir ∧ ∃ d, d ∈ ds ∧ p `prefix_of` d)
         ∨ (∃ o, o ∈ os ∧ p = output_path o name ∧ n = File (content o name))).

(** All prefixes of a path, the shortest first. *)
Fixpoint prefixes (l : list string) : list (list string) :=
  [] :: match l with
        | [] => []
        | x :: l' => map (cons x) (prefixes l')
        end.

(** Below the version-control metadata directory. *)
Definition in_git_dir (p : list string) : Prop := [".git"] `prefix_of` p.

(** [below root q]: the path of [q] relative to [root], if [q] is at
    [root] or below it. *)
Fixpoint below (root q : list string) : option (list string) :=
  match root, q with
  | [], _ => Some q
  | a :: root', b :: q' => if String.eqb a b then below root' q' else None
  | _ :: _, [] => None
  end.


(** *** Assumptions on the surroundings *)

(** The project can be created in [w]: the working directory exists and
    nothing exists at the project name or below it. *)
Record Ready (name : string) (w : World) : Prop := {
  ready_cwd : fs w !! cwd w = Some Dir;
  ready_fresh : ∀ p, fs w !! (cwd w ++ name :: p) = None
}.

(** [git init] does its work: started in a directory without a [.git]
    entry it succeeds, and a successful run changes nothing outside
    that entry. *)
Record GitBehaves
    (git : list string → gmap (list string) node
           → option string * gmap (list string) node) : Prop := {
  git_succeeds : ∀ d t,
    t !! d = Some Dir → t !! (d ++ [".git"]) = None → (git d t).1 = None;
  git_frame : ∀ d t t' p,
    git d t = (None, t') → ¬ (d ++ [".git"]) `prefix_of` p → t' !! p = t !! p
}.

(** *** Reading the generated files *)

(** One [KEY=value] line; a line without [=] is no pair. *)
Definition parse_pair (line : string) : option (string * string) :=
  match split "=" line with
  | k :: v :: more => Some (k, join "=" (v :: more))
  | _ => None
  end.

(** The key=value pairs of an environment file, in order. *)
Definition parse_env (text : string) : list (string * string) :=
  omap parse_pair (split "010" text).

Fixpoint assoc (k : string) (kvs : list (string * string)) : option string :=
  match kvs with
  | [] => None
  | (k', v) :: more => if String.eqb k k' then Some v else assoc k more
  end.

Definition env_lookup (k text : string) : option string :=
  assoc k (parse_env text).









(** *** A concrete surrounding to run the program in *)

(** A [git init] that creates [.git] with a [HEAD] file in it. *)
Definition git_demo (d : list string) (t : gmap (list string) node)
  : option string * gmap (list string) node :=
  (None, <[d ++ [".git"; "HEAD"] := File "ref: refs/heads/master"]>
           (<[d ++ [".git"] := Dir]> t)).

(** A home directory with nothing in it. *)
Definition home : World :=
  mkWorld ["home"; "dev"]
          (<[["home"; "dev"] := Dir]> (<[["home"] := Dir]> {[ [] := Dir ]}))
          "" "".

End Spec.

(** ** Vocabulary for the behaviour of the program as a process *)

Module Behaviour.
Import GoStrings Filepath Templates Host Gogo Spec.


(** The confirmation [main] prints for a project name. *)
Definition confirmation (name : string) : string :=
  "Project " +:+ name +:+ " has been created successfully!" +:+ nl.

(** A host on which git cannot be started: the command fails and the file
    tree stays as it is. *)
Definition git_absent (d : list string) (t : gmap (list string) node)
  : option string * gmap (list string) node :=
  (Some ("exec: " +:+ dq +:+ "git" +:+ dq
         +:+ ": executable file not found in $PATH"), t).

(** The home directory with a regular file notes in it. *)
Definition home_with_notes : World :=
  mkWorld ["home"; "dev"]
          (<[["home"; "dev"; "notes"] := File "remember the milk"]> (fs home))
          "" "".

(** The struct tag that binds a field of the generated [Config] to a key
    of the environment file. *)
Definition mapstructure_tag (key : string) : string :=
  "`mapstructure:" +:+ dq +:+ key +:+ dq +:+ "`".

(** How often [sub] occurs in [s], overlapping occurrences included. *)
Fixpoint occurrences (sub s : string) : nat :=
  (if has_prefix sub s then 1 else 0)
  + match s with
    | EmptyString => 0
    | String _ s' => occurrences sub s'
    end.

End Behaviour.

Import GoStrings Filepath Templates Host Gogo Spec Behaviour.

(** Case analysis on membership in a list written out, and membership of
  an element that is written in it. *)
Ltac elems H :=
repeat (apply elem_of_cons in H as [H|H]; [try subst|]);
try (apply elem_of_nil in H; contradiction).

Ltac elems_here :=
solve [repeat first [apply list_elem_of_here | apply list_elem_of_further]].

(** * Facts about strings and formatting *)

Section StringFacts.

Lemma sapp_cons (a : ascii) (s t : string) :
  String a s +:+ t = String a (s +:+ t).
Proof. reflexivity. Qed.

Lemma sapp_nil_r (s : string) : s +:+ "" = s.
Proof. induction s as [|a s IH]; [done|]. by rewrite sapp_cons, IH. Qed.

Lemma sapp_assoc (a b c : string) : (a +:+ b) +:+ c = a +:+ b +:+ c.
Proof.
  induction a as [|x a IH]; [done|]. by rewrite !sapp_cons, IH.
Qed.

Lemma sapp_length (a b : string) :
  String.length (a +:+ b) = String.length a + String.length b.
Proof. induction a as [|x a IH]; [done|]. rewrite sapp_cons. simpl. by rewrite IH. Qed.

(** Two strings of one length in front of equal wholes are equal. *)
Lemma sapp_inj_length (a b s t : string) :
  String.length a = String.length b → a +:+ s = b +:+ t → a = b ∧ s = t.
Proof.
  revert b. induction a as [|x a IH]; intros [|y b] Hl He; try done.
  rewrite !sapp_cons in He. simpl in Hl. simplify_eq.
  destruct (IH b) as [-> ->]; auto.
Qed.

Lemma lacks_cons (c a : ascii) (s : string) :
  lacks c (String a s) = negb (Ascii.eqb a c) && lacks c s.
Proof. reflexivity. Qed.


Lemma split_not_nil (sep : ascii) (s : string) : split sep s ≠ [].
Proof.
  induction s as [|a s IH]; simpl; [done|].
  destruct (Ascii.eqb a sep); [done|]. by destruct (split sep s).
Qed.

(** A prefix without the separator stays in front of the first field. *)
Lemma split_app_lacks (sep : ascii) (a s : string) :
  lacks sep a = true →
  split sep (a +:+ s) =
    match split sep s with
    | h :: t => (a +:+ h) :: t
    | [] => [a]
    end.
Proof.
  induction a as [|x a IH]; intros Ha.
  - change ("" +:+ s) with s. pose proof (split_not_nil sep s).
    by destruct (split sep s).
  - rewrite lacks_cons in Ha. apply andb_true_iff in Ha as [Hx Ha].
    apply negb_true_iff in Hx.
    rewrite sapp_cons. simpl. rewrite Hx, (IH Ha).
    by destruct (split sep s).
Qed.

Lemma split_lacks (sep : ascii) (a : string) :
  lacks sep a = true → split sep a = [a].
Proof.
  intros Ha. rewrite <- (sapp_nil_r a) at 1.
  rewrite (split_app_lacks _ _ _ Ha). simpl. by rewrite sapp_nil_r.
Qed.

Lemma split_app_sep (sep : ascii) (a s : string) :
  lacks sep a = true → split sep (a +:+ String sep s) = a :: split sep s.
Proof.
  intros Ha. rewrite (split_app_lacks _ _ _ Ha). simpl.
  rewrite Ascii.eqb_refl. by rewrite sapp_nil_r.
Qed.

Lemma ends_with_app (c b : ascii) (a s : string) :
  ends_with c (a +:+ String b s) = ends_with c (String b s).
Proof.
  induction a as [|x a IH]; [reflexivity|].
  rewrite sapp_cons, <- IH. by destruct a.
Qed.





End StringFacts.

(** * The templates, rendered *)

Section Rendered.

(** The entry point with the project name in place, line by line. *)
Lemma mainGoContent_lines (projectName : string) :
  mainGoContent projectName = unlines [
    "package main";
    "";
    "import (";
    tab +:+ dq +:+ "fmt" +:+ dq;
    tab +:+ dq +:+ "log" +:+ dq;
    "";
    tab +:+ dq +:+ projectName +:+ "/pkg/config" +:+ dq;
    tab +:+ dq +:+ projectName +:+ "/pkg/logger" +:+ dq;
    ")";
    "";
    "func main() {";
    tab +:+ "// Load configuration";
    tab +:+ "cfg := config.LoadConfig()";
    "";
    tab +:+ "// Initialize logger";
    tab +:+ "log, err := logger.NewLogger(cfg.LogFile)";
    tab +:+ "if err != nil {";
    tab +:+ tab +:+ "log.Fatalf(" +:+ dq +:+ "Failed to initialize logger: %v" +:+ dq +:+ ", err)";
    tab +:+ "}";
    "";
    tab +:+ "log.Info().Msg(" +:+ dq +:+ "Starting the application" +:+ dq +:+ ")";
    tab +:+ "fmt.Println(" +:+ dq +:+ "Server Port:" +:+ dq +:+ ", cfg.ServerPort)";
    "}"
  ].
Proof. unfold unlines at 1; cbn [foldr]. rewrite !sapp_assoc. reflexivity. Qed.

(** The build helper with the project name in place. *)
Lemma makefileContent_lines (projectName : string) :
  makefileContent projectName = unlines [
    "run:";
    tab +:+ "go run cmd/" +:+ projectName +:+ "/main.go";
    "";
    "test:";
    tab +:+ "go test ./...";
    "";
    "migrate:";
    tab +:+ "migrate -path ./migrations -database $(DB_URL) up"
  ].
Proof. unfold unlines at 1; cbn [foldr]. rewrite !sapp_assoc. reflexivity. Qed.

(** The entry point around the two places the name goes to. *)
Lemma mainGoContent_shape :
  ∃ head tail, ∀ name,
    mainGoContent name
    = head +:+ tab +:+ dq +:+ name +:+ "/pkg/config" +:+ dq +:+ nl
           +:+ tab +:+ dq +:+ name +:+ "/pkg/logger" +:+ dq +:+ nl
           +:+ tail.
Proof.
  exists (unlines ["package main"; ""; "import (";
                   tab +:+ dq +:+ "fmt" +:+ dq;
                   tab +:+ dq +:+ "log" +:+ dq; ""]).
  eexists. intros name. rewrite mainGoContent_lines.
  unfold unlines at 1. cbn [foldr]. rewrite ?sapp_assoc; reflexivity.
Qed.

Lemma sapp_inv_head (a s t : string) : a +:+ s = a +:+ t → s = t.
Proof.
  induction a as [|x a IH]; [done|]. rewrite !sapp_cons. intros [= ?]. auto.
Qed.

(** Different names give different entry points and build helpers. *)
Lemma mainGoContent_inj (n1 n2 : string) :
  mainGoContent n1 = mainGoContent n2 → n1 = n2.
Proof.
  destruct mainGoContent_shape as (head & tail & Hshape).
  rewrite !Hshape. intros H.
  do 3 apply sapp_inv_head in H.
  pose proof (f_equal String.length H) as Hl.
  rewrite !sapp_length in Hl. simpl in Hl.
  apply sapp_inj_length in H as [? _]; [done|lia].
Qed.

Lemma makefileContent_inj (n1 n2 : string) :
  makefileContent n1 = makefileContent n2 → n1 = n2.
Proof.
  rewrite !makefileContent_lines. unfold unlines. cbn [foldr].
  rewrite !sapp_assoc. intros H. do 4 apply sapp_inv_head in H.
  pose proof (f_equal String.length H) as Hl.
  rewrite !sapp_length in Hl. simpl in Hl.
  apply sapp_inj_length in H as [? _]; [done|lia].
Qed.

End Rendered.

(** * Facts about paths *)

Section PathFacts.

Lemma all_chars_impl (f g : ascii → bool) (s : string) :
  (∀ c, f c = true → g c = true) → all_chars f s = true → all_chars g s = true.
Proof.
  intros Hfg. induction s as [|a s IH]; simpl; [done|].
  rewrite !andb_true_iff. intros [? ?]. auto.
Qed.

Lemma name_char_not_sep (c : ascii) :
  name_char c = true → negb (Ascii.eqb c "/") = true.
Proof. destruct c as [[] [] [] [] [] [] [] []]; by vm_compute. Qed.


Lemma valid_name_plain (name : string) :
  valid_name name = true → plain name = true.
Proof.
  unfold valid_name, plain. rewrite !andb_true_iff.
  intros [[[? ?] ?] Hc]. repeat split; try done.
  revert Hc. apply all_chars_impl, name_char_not_sep.
Qed.


Lemma plain_inv (e : string) :
  plain e = true →
  String.eqb e "" = false ∧ String.eqb e "." = false
  ∧ String.eqb e ".." = false ∧ lacks "/" e = true.
Proof.
  unfold plain. rewrite !andb_true_iff, !negb_true_iff.
  by intros [[[? ?] ?] ?].
Qed.

Lemma split_join (es : list string) :
  Forall (λ e, plain e = true) es → es ≠ [] → split "/" (join "/" es) = es.
Proof.
  induction 1 as [|e es He Hes IH]; [done|]. intros _.
  apply plain_inv in He as (_ & _ & _ & He).
  destruct es as [|e' es]; [simpl; by apply split_lacks|].
  change (join "/" (e :: e' :: es)) with (e +:+ String "/" (join "/" (e' :: es))).
  rewrite split_app_sep by done. by rewrite IH.
Qed.

Lemma join_plain_head (e : string) (es : list string) :
  plain e = true →
  has_prefix "/" (join "/" (e :: es)) = false
  ∧ String.eqb (join "/" (e :: es)) "" = false.
Proof.
  intros He. apply plain_inv in He as (Hne & _ & _ & He).
  destruct e as [|a e]; [done|].
  rewrite lacks_cons in He. apply andb_true_iff in He as [Ha _].
  apply negb_true_iff in Ha. rewrite Ascii.eqb_sym in Ha.
  assert (∃ r, join "/" (String a e :: es) = String a r) as [r ->].
  { destruct es; [by exists e|]. by eexists. }
  cbn [has_prefix]. by rewrite Ha.
Qed.

Lemma clean_steps (rooted : bool) (es acc : list string) :
  Forall (λ e, plain e = true) es →
  fold_left (clean_step rooted) es acc = rev es ++ acc.
Proof.
  intros Hes. revert acc. induction Hes as [|e es He Hes IH]; intros acc; [done|].
  apply plain_inv in He as (H1 & H2 & H3 & _).
  simpl. unfold clean_step at 2. rewrite H1, H2, H3. simpl.
  rewrite IH. by rewrite <- app_assoc.
Qed.

(** [Clean] leaves a relative path of plain elements as it is. *)
Lemma Clean_join (es : list string) :
  Forall (λ e, plain e = true) es → es ≠ [] →
  Clean (join "/" es) = join "/" es.
Proof.
  intros Hes Hne. unfold Clean.
  destruct es as [|e es]; [done|].
  destruct (join_plain_head e es) as [-> Hnil]; [by inversion Hes|].
  unfold Separator. rewrite split_join by done.
  rewrite clean_steps by done. rewrite app_nil_r, rev_involutive.
  by rewrite Hnil.
Qed.

Lemma Join_plain (es : list string) :
  Forall (λ e, plain e = true) es → es ≠ [] → Join es = join "/" es.
Proof.
  intros Hes Hne. destruct es as [|e es]; [done|].
  assert (He : plain e = true) by by inversion Hes.
  apply plain_inv in He as (He & _). cbn [Join]. rewrite He.
  by apply Clean_join.
Qed.

(** The project name joined with a relative path of plain elements. *)
Lemma Join_under (name : string) (es : list string) :
  plain name = true → Forall (λ e, plain e = true) es → es ≠ [] →
  Join [name; join "/" es] = join "/" (name :: es).
Proof.
  intros Hn Hes Hne. destruct es as [|e es]; [done|].
  pose proof Hn as Hn'. apply plain_inv in Hn' as (Hnil & _).
  cbn [Join]. rewrite Hnil.
  change (join "/" [name; join "/" (e :: es)]) with (join "/" (name :: e :: es)).
  apply Clean_join; [by constructor|done].
Qed.

Lemma step_plain (cur : list string) (e : string) :
  plain e = true → step cur e = cur ++ [e].
Proof.
  intros He. apply plain_inv in He as (_ & H2 & H3 & _).
  unfold step. by rewrite H2, H3.
Qed.

(** A relative name of plain elements is walked from the working
    directory, element by element. *)
Lemma resolve_join (w : World) (es : list string) :
  Forall (λ e, plain e = true) es → es ≠ [] →
  resolve w (join "/" es) = namei (fs w) (cwd w) es.
Proof.
  intros Hes Hne. unfold resolve, start. rewrite split_join by done.
  destruct es as [|e es]; [done|].
  destruct (join_plain_head e es) as [-> ->]; [by inversion Hes|done].
Qed.

Lemma namei_plain (t : gmap (list string) node) (cur es : list string) :
  Forall (λ e, plain e = true) es →
  (∀ r, r `prefix_of` es → r ≠ es → t !! (cur ++ r) = Some Dir) →
  namei t cur es = inr (cur ++ es).
Proof.
  intros Hes. revert cur. induction Hes as [|e es He Hes IH]; intros cur Hd.
  - by rewrite app_nil_r.
  - simpl. pose proof He as He'. apply plain_inv in He' as (-> & _).
    pose proof (Hd [] (prefix_nil _)) as H0. rewrite app_nil_r in H0.
    rewrite H0 by done. rewrite step_plain by done.
    rewrite IH; [by rewrite <- app_assoc|].
    intros r Hr Hne. rewrite <- app_assoc. apply Hd; [by apply prefix_cons|].
    by intros [= ->].
Qed.

(** What [mkdir_all] does along a path of plain elements that no file
    blocks: every directory on the way exists afterwards, and nothing
    else has changed. *)
Lemma mkdir_all_plain (t : gmap (list string) node) (cur es : list string) :
  Forall (λ e, plain e = true) es →
  t !! cur = Some Dir →
  (∀ r c, r `prefix_of` es → t !! (cur ++ r) ≠ Some (File c)) →
  ∃ t', mkdir_all t cur es = (None, t')
    ∧ (∀ r, r ≠ [] → r `prefix_of` es → t' !! (cur ++ r) = Some Dir)
    ∧ (∀ p, (∀ r, r ≠ [] → r `prefix_of` es → p ≠ cur ++ r) → t' !! p = t !! p).
Proof.
  intros Hes. revert t cur.
  induction Hes as [|e es He Hes IH]; intros t cur Hcur Hfile.
  - exists t. split; [done|]. split; [|done].
    intros r Hr Hp. by apply prefix_nil_inv in Hp.
  - pose proof He as He'. apply plain_inv in He' as (Hnil & _).
    cbn [mkdir_all]. rewrite Hnil, Hcur, step_plain by done.
    assert (Hstep : ∀ r, r ≠ [] → r `prefix_of` e :: es →
               ∃ r', r = e :: r' ∧ r' `prefix_of` es).
    { intros [|x r] Hr Hp; [done|]. exists r.
      apply prefix_cons_inv_1 in Hp as ?. apply prefix_cons_inv_2 in Hp.
      by subst. }
    destruct (t !! (cur ++ [e])) as [[|c]|] eqn:Hnxt.
    + destruct (IH t (cur ++ [e])) as (t' & Ht' & Hon & Hoff); [done| |].
      { intros r c Hr. rewrite <- app_assoc. apply Hfile. by apply prefix_cons. }
      exists t'. split; [done|]. split.
      * intros r Hr Hp. destruct (Hstep r Hr Hp) as (r' & -> & Hp').
        destruct (decide (r' = [])) as [->|Hr'].
        { rewrite Hoff; [done|]. intros r Hr0 _ Heq.
          apply (f_equal length) in Heq. rewrite !length_app in Heq.
          destruct r; simpl in *; [done|lia]. }
        specialize (Hon r' Hr' Hp'). by rewrite <- app_assoc in Hon.
      * intros p Hp. apply Hoff. intros r Hr Hpre ->.
        apply (Hp (e :: r)); [done|by apply prefix_cons|by rewrite <- app_assoc].
    + exfalso. apply (Hfile [e] c); [|done].
      apply prefix_cons, prefix_nil.
    + destruct (IH (<[cur ++ [e] := Dir]> t) (cur ++ [e])) as (t' & Ht' & Hon & Hoff).
      { apply lookup_insert_eq. }
      { intros r c Hr. destruct (decide (r = [])) as [->|Hr'].
        - by rewrite app_nil_r, lookup_insert_eq.
        - rewrite lookup_insert_ne.
          + rewrite <- app_assoc. apply Hfile. by apply prefix_cons.
          + intros Heq. apply (f_equal length) in Heq. rewrite !length_app in Heq.
            destruct r; simpl in *; [done|lia]. }
      exists t'. split; [done|]. split.
      * intros r Hr Hp. destruct (Hstep r Hr Hp) as (r' & -> & Hp').
        destruct (decide (r' = [])) as [->|Hr'].
        { rewrite Hoff; [apply lookup_insert_eq|]. intros r Hr0 _ Heq.
          apply (f_equal length) in Heq. rewrite !length_app in Heq.
          destruct r; simpl in *; [done|lia]. }
        specialize (Hon r' Hr' Hp'). by rewrite <- app_assoc in Hon.
      * intros p Hp. rewrite Hoff.
        { apply lookup_insert_ne. intros <-.
          apply (Hp [e]); [done|apply prefix_cons, prefix_nil|done]. }
        intros r Hr Hpre ->.
        apply (Hp (e :: r)); [done|by apply prefix_cons|by rewrite <- app_assoc].
Qed.

End PathFacts.

(** * Running the program *)

Section Steps.

Lemma bind_eq {A B : Type} (m : Proc A) (f : A → Proc B) (w : World) :
  (m ≫= f) w =
    match m w with
    | (Returned a, w') => f a w'
    | (Exited st, w') => (Exited st, w')
    end.
Proof. reflexivity. Qed.

Lemma prefix_app_same (root p q : list string) :
  (root ++ p) `prefix_of` (root ++ q) ↔ p `prefix_of` q.
Proof.
  split; intros [k Hk]; exists k.
  - rewrite <- app_assoc in Hk. by apply app_inv_head in Hk.
  - by rewrite Hk, app_assoc.
Qed.

Lemma not_prefix_snoc (cur : list string) (e : string) (r : list string) :
  r `prefix_of` cur → ¬ (cur ++ [e]) `prefix_of` r.
Proof.
  intros H1 H2. apply prefix_length in H1, H2.
  rewrite length_app in H2. simpl in H2. lia.
Qed.

Lemma app_ne_self (l p : list string) : p ≠ [] → l ≠ l ++ p.
Proof.
  intros Hp Heq. apply (f_equal length) in Heq. rewrite length_app in Heq.
  destruct p; simpl in *; [done|lia].
Qed.

Variable name : string.
Variable w : World.
Hypothesis Hname : plain name = true.
Hypothesis Hready : Ready name w.

Local Abbreviation root := (cwd w ++ [name]).

Lemma built_cwd ds os t : built w name ds os t → t !! cwd w = Some Dir.
Proof.
  intros (Hout & _). rewrite Hout; [apply Hready|].
  by apply not_prefix_snoc.
Qed.

(** Everything on the way to [p], the root included, is a directory as
    soon as [p] leads to an entry already made. *)
Lemma built_on_way ds os t (es : list string) :
  built w name ds os t →
  (∀ r, r `prefix_of` es → r ≠ es → r ≠ [] → ∃ d, d ∈ ds ∧ r `prefix_of` d) →
  ∀ r, r `prefix_of` name :: es → r ≠ name :: es → t !! (cwd w ++ r) = Some Dir.
Proof.
  intros Hb Hes [|x r] Hr Hne.
  - rewrite app_nil_r. by eapply built_cwd.
  - apply prefix_cons_inv_1 in Hr as ?. apply prefix_cons_inv_2 in Hr. subst x.
    destruct Hb as (_ & Hroot & Hin).
    destruct (decide (r = [])) as [->|Hr']; [done|].
    change (cwd w ++ name :: r) with (cwd w ++ [name] ++ r).
    rewrite app_assoc. apply Hin; [done|]. left. split; [done|].
    apply Hes; [done| |done]. by intros ->.
Qed.

(** [os.Mkdir] of the project directory. *)
Lemma mkdir_root :
  ∃ t, os_Mkdir name w = (Returned None, set_fs t w) ∧ built w name [] [] t.
Proof.
  exists (<[root := Dir]> (fs w)). split.
  - unfold os_Mkdir. change name with (join "/" [name]) at 1.
    rewrite resolve_join; [|by repeat constructor|done].
    rewrite namei_plain; [|by repeat constructor|].
    + destruct Hready as [_ Hfresh]. specialize (Hfresh []).
      by rewrite Hfresh.
    + intros r Hr Hne. destruct r as [|x r].
      * rewrite app_nil_r. apply Hready.
      * apply prefix_cons_inv_1 in Hr as ?. apply prefix_cons_inv_2 in Hr.
        apply prefix_nil_inv in Hr. by subst.
  - split; [|split].
    + intros q Hq. apply lookup_insert_ne. intros <-. by apply Hq.
    + apply lookup_insert_eq.
    + intros p n Hp. rewrite lookup_insert_ne by by apply app_ne_self.
      rewrite <- app_assoc. simpl.
      destruct Hready as [_ ->]. split; [done|].
      intros [(_ & d & Hd & _)|(o & Ho & _)]; by apply elem_of_nil in Hd || apply elem_of_nil in Ho.
Qed.

(** One round of the directory loop. *)
Lemma make_dir ds t (d : list string) :
  built w name ds [] t →
  Forall (λ e, plain e = true) d → d ≠ [] →
  ∃ t', os_MkdirAll (Join [name; join "/" d]) (set_fs t w)
          = (Returned None, set_fs t' w)
    ∧ built w name (ds ++ [d]) [] t'.
Proof.
  intros Hb Hd Hne. rewrite Join_under by done.
  assert (Hnd : Forall (λ e, plain e = true) (name :: d)) by by constructor.
  destruct (join_plain_head name d Hname) as [Hpre Hnil].
  unfold os_MkdirAll, start. rewrite Hnil, Hpre, split_join by done.
  change (fs (set_fs t w)) with t. change (cwd (set_fs t w)) with (cwd w).
  destruct (mkdir_all_plain t (cwd w) (name :: d)) as (t' & -> & Hon & Hoff).
  - done.
  - by eapply built_cwd.
  - intros [|x r] c Hr.
    + rewrite app_nil_r. by erewrite built_cwd.
    + apply prefix_cons_inv_1 in Hr as ?. apply prefix_cons_inv_2 in Hr. subst x.
      destruct Hb as (_ & Hroot & Hin).
      change (cwd w ++ name :: r) with (cwd w ++ [name] ++ r).
      rewrite app_assoc.
      destruct (decide (r = [])) as [->|Hr']; [by rewrite app_nil_r, Hroot|].
      intros [(? & _)|(o & Ho & _)]%Hin; [done| |done].
      by apply elem_of_nil in Ho.
  - exists t'. split; [done|].
    destruct Hb as (Hout & Hroot & Hin). split; [|split].
    + intros q Hq. rewrite Hoff; [by apply Hout|].
      intros [|x r] Hr Hp ->; [done|].
      apply prefix_cons_inv_1 in Hp as ?. subst x.
      apply Hq. exists r. by rewrite <- app_assoc.
    + apply (Hon [name]); [done|]. apply prefix_cons, prefix_nil.
    + intros p n Hp.
      destruct (decide (p `prefix_of` d)) as [Hpd|Hpd].
      * rewrite <- app_assoc. change ([name] ++ p) with (name :: p).
        rewrite (Hon (name :: p)); [|done|by apply prefix_cons].
        split.
        { intros [= <-]. left. split; [done|]. exists d. split; [|done].
          apply elem_of_app. right. by apply list_elem_of_singleton. }
        { intros [(-> & _)|(o & Ho & _)]; [done|by apply elem_of_nil in Ho]. }
      * rewrite Hoff.
        { rewrite (Hin p n Hp). split.
          - intros [(-> & d' & Hd' & Hpd')|(o & Ho & _)]; [|by apply elem_of_nil in Ho].
            left. split; [done|]. exists d'. split; [|done].
            apply elem_of_app. by left.
          - intros [(-> & d' & Hd' & Hpd')|(o & Ho & _)]; [|by apply elem_of_nil in Ho].
            left. split; [done|]. exists d'. split; [|done].
            apply elem_of_app in Hd' as [?|Hd']; [done|].
            apply list_elem_of_singleton in Hd'. by subst. }
        intros [|x r] Hr Hxr Heq; [done|].
        apply prefix_cons_inv_1 in Hxr as ?. apply prefix_cons_inv_2 in Hxr. subst x.
        rewrite <- app_assoc in Heq. apply app_inv_head in Heq.
        simpl in Heq. by simplify_eq.
Qed.

(** The directory loop of [main] over a list of relative paths. *)
Lemma make_dirs (todo : list (list string)) : ∀ ds t,
  built w name ds [] t →
  Forall (λ d, Forall (λ e, plain e = true) d ∧ d ≠ []) todo →
  ∃ t', for_range (map (join "/") todo) (λ dir,
          let dirPath := Join [name; dir] in
          err ← os_MkdirAll dirPath;
          match err with
          | Some e =>
              log_Fatalf "Failed to create directory %s: %v" [dirPath; Error e]
          | None => mret tt
          end) (set_fs t w) = (Returned tt, set_fs t' w)
    ∧ built w name (ds ++ todo) [] t'.
Proof.
  induction todo as [|d todo IH]; intros ds t Hb Htodo.
  - exists t. by rewrite app_nil_r.
  - apply Forall_cons in Htodo as [[Hd Hne] Htodo].
    destruct (make_dir ds t d Hb Hd Hne) as (t1 & Hrun & Hb1).
    destruct (IH (ds ++ [d]) t1 Hb1 Htodo) as (t' & Hloop & Hb').
    exists t'. rewrite <- app_assoc in Hb'. split; [|done].
    cbn [map for_range]. rewrite bind_eq. cbv zeta. rewrite bind_eq, Hrun.
    exact Hloop.
Qed.

(** [createFile] for one of the outputs whose directory is there. *)
Lemma write_file ds os t (o : output) :
  built w name ds os t →
  Forall (λ e, plain e = true) (output_path o name) →
  (∀ r, r `prefix_of` output_path o name → r ≠ output_path o name → r ≠ [] →
        ∃ d, d ∈ ds ∧ r `prefix_of` d) →
  (∀ d, d ∈ ds → ¬ output_path o name `prefix_of` d) →
  (∀ o', o' ∈ os → output_path o' name ≠ output_path o name) →
  ∃ t', createFile (join "/" (name :: output_path o name)) (content o name)
          (set_fs t w) = (Returned tt, set_fs t' w)
    ∧ built w name ds (os ++ [o]) t'.
Proof.
  intros Hb Hp Hway Hnodir Hnew.
  set (f := output_path o name) in *.
  assert (Hf : f ≠ []) by by destruct o.
  exists (<[root ++ f := File (content o name)]> t). split.
  - unfold createFile. rewrite bind_eq. unfold os_Create.
    rewrite resolve_join; [|by constructor|done].
    change (fs (set_fs t w)) with t. change (cwd (set_fs t w)) with (cwd w).
    rewrite namei_plain; [|by constructor|by eapply built_on_way].
    change (cwd w ++ name :: f) with (cwd w ++ [name] ++ f). rewrite app_assoc.
    assert (Hnone : t !! (root ++ f) = None).
    { destruct Hb as (_ & _ & Hin). apply eq_None_not_Some. intros [n Hn].
      apply Hin in Hn as [(_ & d & Hd & Hfd)|(o' & Ho' & Heq & _)]; [| |done].
      - by apply (Hnodir d).
      - by apply (Hnew o'). }
    rewrite Hnone. rewrite bind_eq. unfold File_WriteString.
    change (fs (set_fs ?t' _)) with t'. rewrite lookup_insert_eq.
    rewrite insert_insert_eq. reflexivity.
  - destruct Hb as (Hout & Hroot & Hin). split; [|split].
    + intros q Hq. rewrite lookup_insert_ne; [by apply Hout|].
      intros <-. apply Hq. by exists f.
    + rewrite lookup_insert_ne; [done|]. intros Heq.
      symmetry in Heq. by apply app_ne_self in Heq.
    + intros p n Hne. destruct (decide (p = f)) as [->|Hpf].
      * rewrite lookup_insert_eq. split.
        { intros [= <-]. right. exists o. split; [|done].
          apply elem_of_app. right. by apply list_elem_of_singleton. }
        { intros [(_ & d & Hd & Hfd)|(o' & Ho' & Heq & ->)].
          - by destruct (Hnodir d).
          - apply elem_of_app in Ho' as [Ho'|Ho'].
            + by destruct (Hnew o').
            + apply list_elem_of_singleton in Ho'. by subst. }
      * rewrite lookup_insert_ne by (by intros ?%app_inv_head).
        rewrite (Hin p n Hne). split.
        { intros [?|(o' & Ho' & ?)]; [by left|right].
          exists o'. split; [|done]. apply elem_of_app. by left. }
        { intros [?|(o' & Ho' & Heq & ?)]; [by left|right].
          exists o'. split; [|done].
          apply elem_of_app in Ho' as [?|Ho']; [done|].
          apply list_elem_of_singleton in Ho'. by subst. }
Qed.

(** [git init] in the project directory. *)
Lemma init_git git ds os t :
  GitBehaves git →
  built w name ds os t →
  (∀ d, d ∈ ds → ¬ [".git"] `prefix_of` d) →
  (∀ o, o ∈ os → output_path o name ≠ [".git"]) →
  ∃ t', initGit git name (set_fs t w) = (Returned tt, set_fs t' w)
    ∧ (∀ q, ¬ (root ++ [".git"]) `prefix_of` q → t' !! q = t !! q).
Proof.
  intros [Hok Hframe] Hb Hds Hos.
  pose proof (built_cwd _ _ _ Hb) as Hcwd.
  destruct Hb as (Hout & Hroot & Hin).
  assert (Hnone : t !! (root ++ [".git"]) = None).
  { apply eq_None_not_Some. intros [n Hn].
    apply Hin in Hn as [(_ & d & Hd & Hfd)|(o & Ho & Heq & _)]; [| |done].
    - by apply (Hds d).
    - by apply (Hos o). }
  destruct (git root t) as [e t'] eqn:Hgit.
  pose proof (Hok root t Hroot Hnone) as He. rewrite Hgit in He. simpl in He.
  subst e. exists t'. split; [|intros q Hq; by eapply Hframe].
  unfold initGit. rewrite bind_eq. unfold exec_git_init.
  change name with (join "/" [name]) at 1.
  rewrite resolve_join; [|by repeat constructor|done].
  change (fs (set_fs t w)) with t. change (cwd (set_fs t w)) with (cwd w).
  rewrite namei_plain; [|by repeat constructor|].
  - by rewrite Hroot, Hgit.
  - intros r Hr Hne. destruct r as [|x r]; [by rewrite app_nil_r|].
    apply prefix_cons_inv_1 in Hr as ?. apply prefix_cons_inv_2 in Hr.
    apply prefix_nil_inv in Hr. by subst.
Qed.

End Steps.

(** * The manifest the program works through *)

Section Manifest.

Lemma prefix_of_prefixes (r l : list string) :
  r `prefix_of` l ↔ r ∈ prefixes l.
Proof.
  revert r. induction l as [|x l IH]; intros r; simpl.
  - rewrite list_elem_of_singleton. split; [apply prefix_nil_inv|].
    by intros ->.
  - rewrite elem_of_cons, list_elem_of_fmap. split.
    + intros Hr. destruct r as [|y r]; [by left|right].
      apply prefix_cons_inv_1 in Hr as ?. apply prefix_cons_inv_2 in Hr. subst y.
      exists r. split; [done|]. by apply IH.
    + intros [->|(r' & -> & Hr')]; [apply prefix_nil|].
      apply prefix_cons. by apply IH.
Qed.

Variable name : string.
Hypothesis Hname : plain name = true.

(** The folder structure of the source is the manifest of section 6. *)
Lemma dirs_manifest : dirs name = map (join "/") (manifest_dirs name).
Proof.
  unfold dirs. rewrite Join_plain; [done| |done].
  by repeat constructor.
Qed.

Lemma manifest_dirs_plain :
  Forall (λ d, Forall (λ e, plain e = true) d ∧ d ≠ []) (manifest_dirs name).
Proof. repeat constructor; done. Qed.

Lemma output_path_plain (o : output) :
  Forall (λ e, plain e = true) (output_path o name).
Proof. destruct o; repeat constructor; done. Qed.

(** The path [main] hands to [createFile] for each output. *)
Lemma output_file_name (o : output) :
  join "/" (name :: output_path o name) =
    match o with
    | EntryPoint => Join [name; Join ["cmd"; name; "main.go"]]
    | EnvFile => Join [name; ".env"]
    | IgnoreFile => Join [name; ".gitignore"]
    | BuildHelper => Join [name; "Makefile"]
    | LoggerStub => Join [name; Join ["pkg"; "logger"; "logger.go"]]
    | ConfigStub => Join [name; Join ["pkg"; "config"; "config.go"]]
    end.
Proof.
  destruct o.
  - rewrite (Join_plain ["cmd"; name; "main.go"]); [|by repeat constructor|done].
    symmetry. apply (Join_under name ["cmd"; name; "main.go"]); [done| |done].
    by repeat constructor.
  - symmetry. by apply (Join_under name [".env"]); [|repeat constructor|].
  - symmetry. by apply (Join_under name [".gitignore"]); [|repeat constructor|].
  - symmetry. by apply (Join_under name ["Makefile"]); [|repeat constructor|].
  - symmetry. by apply (Join_under name ["pkg"; "logger"; "logger.go"]);
      [|repeat constructor|].
  - symmetry. by apply (Join_under name ["pkg"; "config"; "config.go"]);
      [|repeat constructor|].
Qed.

Lemma output_way (o : output) (r : list string) :
  r `prefix_of` output_path o name → r ≠ output_path o name → r ≠ [] →
  ∃ d, d ∈ manifest_dirs name ∧ r `prefix_of` d.
Proof.
  intros Hr%prefix_of_prefixes Hne Hnil.
  destruct o; simpl in Hr; elems Hr; try done.
  - exists ["cmd"; name]. split; [elems_here|]. by exists [name].
  - exists ["cmd"; name]. split; [elems_here|done].
  - exists ["pkg"; "logger"]. split; [elems_here|]. by exists ["logger"].
  - exists ["pkg"; "logger"]. split; [elems_here|done].
  - exists ["pkg"; "config"]. split; [elems_here|]. by exists ["config"].
  - exists ["pkg"; "config"]. split; [elems_here|done].
Qed.

Lemma output_no_dir (o : output) (d : list string) :
  d ∈ manifest_dirs name → ¬ output_path o name `prefix_of` d.
Proof.
  intros Hd Hp%prefix_of_prefixes.
  unfold manifest_dirs in Hd. elems Hd; simpl in Hp; elems Hp; by destruct o.
Qed.

Lemma output_path_inj (o o' : output) :
  output_path o name = output_path o' name → o = o'.
Proof. by destruct o, o'. Qed.

Lemma manifest_dirs_no_git (d : list string) :
  d ∈ manifest_dirs name → ¬ in_git_dir d.
Proof.
  intros Hd Hp%prefix_of_prefixes.
  unfold manifest_dirs in Hd. elems Hd; simpl in Hp; by elems Hp.
Qed.

Lemma output_path_no_git (o : output) : ¬ in_git_dir (output_path o name).
Proof. intros Hp%prefix_of_prefixes. destruct o; simpl in Hp; by elems Hp. Qed.

End Manifest.

(** * A complete run *)

Section Success.

Variable git : list string → gmap (list string) node
               → option string * gmap (list string) node.
Variables (prog name : string) (rest : list string) (w : World).
Hypothesis Hgit : GitBehaves git.
Hypothesis Hname : valid_name name = true.
Hypothesis Hready : Ready name w.

Local Abbreviation root := (cwd w ++ [name]).

Lemma created_message :
  Sprintf ("Project %s has been created successfully!" +:+ nl) [name]
  = "Project " +:+ name +:+ " has been created successfully!" +:+ nl.
Proof. reflexivity. Qed.

(** The run of [main] on a valid name in a ready world: it returns, the
    confirmation is printed, and the file tree is the old one with the
    project directory added, holding what the manifest says and, under
    [.git], whatever [git init] put there. *)
Lemma main_success :
  ∃ t, run git (prog :: name :: rest) w
       = (0, mkWorld (cwd w) t
               (stdout w +:+ "Project " +:+ name
                         +:+ " has been created successfully!" +:+ nl)
               (stderr w))
    ∧ t !! root = Some Dir
    ∧ (∀ q, ¬ root `prefix_of` q → t !! q = fs w !! q)
    ∧ (∀ p n, p ≠ [] → ¬ in_git_dir p →
         t !! (root ++ p) = Some n ↔ manifest_node name p n).
Proof.
  pose proof (valid_name_plain _ Hname) as Hp.
  destruct (mkdir_root name w Hp Hready) as (t0 & Hmk & Hb0).
  destruct (make_dirs name w Hp Hready (manifest_dirs name) [] t0 Hb0
              (manifest_dirs_plain name Hp)) as (t1 & Hloop & Hb1).
  simpl app in Hb1.
  assert (Hfile : ∀ os t o, built w name (manifest_dirs name) os t → o ∉ os →
            ∃ t', createFile (join "/" (name :: output_path o name))
                    (content o name) (set_fs t w) = (Returned tt, set_fs t' w)
              ∧ built w name (manifest_dirs name) (os ++ [o]) t').
  { intros os t o Hb Ho. apply write_file; try done.
    - by apply output_path_plain.
    - intros r. by apply output_way.
    - intros d. by apply output_no_dir.
    - intros o' Ho' Heq. apply output_path_inj in Heq. by subst. }
  destruct (Hfile [] t1 EntryPoint Hb1) as (t2 & H2 & Hb2); [by intros ?%elem_of_nil|].
  destruct (Hfile _ t2 EnvFile Hb2) as (t3 & H3 & Hb3); [intros H; by elems H|].
  destruct (Hfile _ t3 IgnoreFile Hb3) as (t4 & H4 & Hb4); [intros H; by elems H|].
  destruct (Hfile _ t4 BuildHelper Hb4) as (t5 & H5 & Hb5); [intros H; by elems H|].
  destruct (Hfile _ t5 LoggerStub Hb5) as (t6 & H6 & Hb6); [intros H; by elems H|].
  destruct (Hfile _ t6 ConfigStub Hb6) as (t7 & H7 & Hb7); [intros H; by elems H|].
  simpl app in Hb7.
  destruct (init_git name w Hp Hready git _ _ t7 Hgit Hb7) as (t8 & H8 & Hframe).
  { intros d. by apply manifest_dirs_no_git. }
  { intros o _. pose proof (output_path_no_git name o) as Hn.
    intros Heq. apply Hn. rewrite Heq. by exists []. }
  exists t8. split; [|split; [|split]].
  - rewrite (output_file_name name Hp) in H2, H3, H4, H5, H6, H7.
    cbn [content] in H2, H3, H4, H5, H6, H7.
    unfold run, main. cbn [length Nat.ltb Nat.leb nth]. cbv zeta.
    rewrite bind_eq, Hmk, bind_eq. cbn [mret Proc_ret].
    rewrite dirs_manifest by done. cbv zeta in Hloop.
    rewrite bind_eq, Hloop.
    rewrite bind_eq, H2, bind_eq, H3, bind_eq, H4.
    rewrite bind_eq, H5, bind_eq, H6, bind_eq, H7.
    rewrite bind_eq, H8. unfold fmt_Printf. by rewrite created_message.
  - destruct Hb7 as (_ & Hroot & _). rewrite Hframe; [done|].
    apply not_prefix_snoc. done.
  - intros q Hq. destruct Hb7 as (Hout & _). rewrite Hframe; [by apply Hout|].
    intros [k Hk]. apply Hq. exists ([".git"] ++ k). by rewrite Hk, <- app_assoc.
  - intros p n Hne Hng. destruct Hb7 as (_ & _ & Hin).
    rewrite Hframe by (by rewrite prefix_app_same).
    rewrite (Hin p n Hne). unfold manifest_node. split.
    + intros [?|(o & _ & ?)]; [by left|right; by exists o].
    + intros [?|(o & ?)]; [by left|right]. exists o. split; [|done].
      destruct o; elems_here.
Qed.

(** After the run each output is in the file tree, with its content. *)
Lemma generated_file (o : output) :
  fs (run git (prog :: name :: rest) w).2
    !! (project_root w name ++ output_path o name)
  = Some (File (content o name)).
Proof.
  destruct main_success as (t & -> & _ & _ & Hin). cbn [snd fs].
  apply Hin.
  - by destruct o.
  - apply output_path_no_git.
  - right. by exists o.
Qed.


End Success.

(** * The demonstration surroundings *)

Section Demo.

Lemma git_demo_behaves : GitBehaves git_demo.
Proof.
  split.
  - done.
  - intros d t t' p [= <-] Hp. rewrite !lookup_insert_ne; [done| |].
    + intros <-. by apply Hp.
    + intros <-. apply Hp. exists ["HEAD"]. by rewrite <- app_assoc.
Qed.

Lemma home_ready (name : string) : Ready name home.
Proof.
  split; [done|]. intros p. unfold home. cbn [fs cwd].
  rewrite !lookup_insert_ne by done. by apply lookup_singleton_ne.
Qed.

End Demo.

(** * The model on sample inputs *)

Section Samples.

Example Clean_samples :
  map Clean ["a//b/../c/./d/"; ""; "/../a"; "../../x/.."; "/"; "a/.."]
  = ["a/c/d"; "."; "/a"; "../.."; "/"; "."].
Proof. reflexivity. Qed.

Example Join_samples :
  [ Join ["cmd"; "x"; "main.go"]; Join [""; ""; "a/"; ""; "b"]; Join [] ]
  = [ "cmd/x/main.go"; "a/b"; "" ].
Proof. reflexivity. Qed.

Example Sprintf_samples :
  [ Sprintf "Project %s has been created" ["x"];
    Sprintf "%v and 100%%" ["x"];
    Sprintf "%s %s" ["x"];
    Sprintf "done" ["x"] ]
  = [ "Project x has been created";
      "x and 100%";
      "x %!s(MISSING)";
      "done%!(EXTRA string=x)" ].
Proof. reflexivity. Qed.

(** A name with a separator in it: the parent a is missing. *)
Example run_missing_parent :
  run git_demo ["gogo"; "a/b"] home
  = (1, mkWorld (cwd home) (fs home) ""
          ("Failed to create project directory: mkdir a/b: "
           +:+ "no such file or directory" +:+ nl)).
Proof. vm_compute. reflexivity. Qed.

(** Extra arguments are ignored. *)
Example run_extra_arguments :
  (run git_demo ["gogo"; "shop"; "--force"] home).1 = 0
  ∧ fs (run git_demo ["gogo"; "shop"; "--force"] home).2
      !! ["home"; "dev"; "shop"; "docs"] = Some Dir
  ∧ fs (run git_demo ["gogo"; "shop"; "--force"] home).2
      !! ["home"; "dev"; "--force"] = None.
Proof. repeat split; vm_compute; reflexivity. Qed.

End Samples.

(** * The claims *)

Section Claims.






Lemma fatal_line (name : string) :
  log_line (Sprintf "Failed to create project directory: %v"
              [Error (PathError "mkdir" name EEXIST)])
  = "Failed to create project directory: mkdir " +:+ name
      +:+ ": file exists" +:+ nl.
Proof.
  unfold log_line.
  assert (Sprintf "Failed to create project directory: %v"
            [Error (PathError "mkdir" name EEXIST)]
          = ("Failed to create project directory: mkdir " +:+ name)
              +:+ ": file exists") as ->.
  { cbn [Error errno_text].
    change (Sprintf _ [?x]) with ("Failed to create project directory: " +:+ x +:+ "").
    rewrite sapp_nil_r, !sapp_assoc. reflexivity. }
  rewrite ends_with_app. cbn [ends_with]. by rewrite !sapp_assoc.
Qed.

(** C5: started without a project name (fewer than two entries in
    [os.Args]) the program exits at once with status 1, the diagnostic
    asks for a project name, and the file tree is what it was. *)
Theorem missing_argument git (args : list string) (w : World) :
  length args < 2 →
  run git args w
  = (1, mkWorld (cwd w) (fs w) (stdout w)
          (stderr w +:+ "Please provide a project name as an argument." +:+ nl)).
Proof.
  intros Hlen. unfold run, main.
  destruct (Nat.ltb_spec (length args) 2) as [_|?]; [reflexivity|lia].
Qed.

Lemma missing_argument_witness :
  run git_demo ["gogo"] home
  = (1, mkWorld (cwd home) (fs home) ""
          ("Please provide a project name as an argument." +:+ nl)).
Proof. apply (missing_argument git_demo ["gogo"] home). simpl. lia. Defined.

(** [main] when [os.Mkdir] finds something under the project name. *)
Lemma run_name_taken git (prog name : string) (rest : list string)
    (w : World) (p : list string) (n : node) :
  resolve w name = inr p → fs w !! p = Some n →
  run git (prog :: name :: rest) w
  = (1, mkWorld (cwd w) (fs w) (stdout w)
          (stderr w +:+ "Failed to create project directory: mkdir " +:+ name
                    +:+ ": file exists" +:+ nl)).
Proof.
  intros Hres Hp. unfold run, main. cbn [length Nat.ltb Nat.leb nth]. cbv zeta.
  rewrite bind_eq. unfold os_Mkdir. rewrite Hres, Hp.
  rewrite bind_eq. unfold log_Fatalf, log_Fatal. by rewrite fatal_line.
Qed.

(** C6: when the project name leads to an existing directory, creating
    the root fails, the program exits with status 1 and the file tree is
    what it was: no subdirectory and no file has been made.  So a second
    run for the same name, after a first one that went through, fails
    and leaves what the first run made as it is. *)
Theorem existing_directory_refused git (prog name : string) (rest : list string) :
  (∀ w p,
     resolve w name = inr p → fs w !! p = Some Dir →
     run git (prog :: name :: rest) w
     = (1, mkWorld (cwd w) (fs w) (stdout w)
             (stderr w +:+ "Failed to create project directory: mkdir "
                       +:+ name +:+ ": file exists" +:+ nl)))
  ∧ (∀ w w1,
       GitBehaves git → valid_name name = true → Ready name w →
       run git (prog :: name :: rest) w = (0, w1) →
       run git (prog :: name :: rest) w1
       = (1, mkWorld (cwd w1) (fs w1) (stdout w1)
               (stderr w1 +:+ "Failed to create project directory: mkdir "
                          +:+ name +:+ ": file exists" +:+ nl))).
Proof.
  split.
  - intros w p Hres Hp. by eapply run_name_taken.
  - intros w w1 Hgit Hname Hready Hrun.
    destruct (main_success git prog name rest w Hgit Hname Hready)
      as (t & Hrun' & Hroot & Hout & _).
    rewrite Hrun in Hrun'. injection Hrun' as ->.
    pose proof (valid_name_plain _ Hname) as Hp.
    apply (run_name_taken _ _ _ _ _ (cwd w ++ [name]) Dir); [|done].
    change (resolve ?w' name) with (resolve w' (join "/" [name])).
    rewrite resolve_join; [|by repeat constructor|done].
    apply namei_plain; [by repeat constructor|]. cbn [fs cwd].
    intros r Hr Hne. destruct r as [|x r].
    + rewrite app_nil_r, Hout; [apply Hready|]. by apply not_prefix_snoc.
    + apply prefix_cons_inv_1 in Hr as ?. apply prefix_cons_inv_2 in Hr.
      apply prefix_nil_inv in Hr. by subst.
Qed.

(** The second run for the name dup in the demonstration surroundings. *)
Lemma existing_directory_refused_witness :
  run git_demo ["gogo"; "dup"] (run git_demo ["gogo"; "dup"] home).2
  = (1, mkWorld (cwd home) (fs (run git_demo ["gogo"; "dup"] home).2)
          (stdout (run git_demo ["gogo"; "dup"] home).2)
          ("Failed to create project directory: mkdir dup: file exists" +:+ nl)).
Proof.
  apply (proj1 (existing_directory_refused git_demo "gogo" "dup" [])
           (run git_demo ["gogo"; "dup"] home).2 ["home"; "dev"; "dup"]).
  - by vm_compute.
  - by vm_compute.
Defined.

(** C2: for every project name the entry-point file contains the two
    import paths <name>/pkg/config and <name>/pkg/logger; the name is put
    into the template at these two places, in the quoted import lines,
    and nowhere else. *)
Theorem entry_point_imports :
  (∀ name, contains (name +:+ "/pkg/config") (mainGoContent name)
           ∧ contains (name +:+ "/pkg/logger") (mainGoContent name))
  ∧ (∃ head tail, ∀ name,
       mainGoContent name
       = head +:+ tab +:+ dq +:+ name +:+ "/pkg/config" +:+ dq +:+ nl
              +:+ tab +:+ dq +:+ name +:+ "/pkg/logger" +:+ dq +:+ nl
              +:+ tail).
Proof.
  destruct mainGoContent_shape as (head & tail & Hshape).
  split; [|by exists head, tail].
  intros name. rewrite Hshape. split.
  - exists (head +:+ tab +:+ dq). eexists. rewrite ?sapp_assoc; reflexivity.
  - exists (head +:+ tab +:+ dq +:+ name +:+ "/pkg/config" +:+ dq +:+ nl
                 +:+ tab +:+ dq).
    eexists. rewrite ?sapp_assoc; reflexivity.
Qed.

(** C3: for every project name the environment file, read as key=value
    pairs, has exactly the eight keys of the template with their literal
    values, the server port being 8080. *)
Theorem env_file_pairs (name : string) :
  parse_env (content EnvFile name)
  = [ ("APP_NAME", "myapi");
      ("SERVER_PORT", "8080");
      ("LOG_FILE", "logs/myapi.log");
      ("DB_USER", "root");
      ("DB_PASSWORD", "password");
      ("DB_HOST", "localhost");
      ("DB_PORT", "5432");
      ("DB_NAME", "mydatabase") ]
  ∧ content EnvFile name = envFileContent.
Proof. split; reflexivity. Qed.





(** C7: the environment file, the ignore file, the logger stub and the
    config stub do not depend on the project name, neither as the
    generators return them nor as two runs for two names leave them in
    the file tree; the entry point and the build helper do depend on it:
    two names never give the same text. *)
Theorem only_two_outputs_use_name :
  (∀ o n1 n2, o ∈ static_outputs →
     content o n1 = content o n2 ∧ output_path o n1 = output_path o n2)
  ∧ (∀ o n1 n2, o ∈ named_outputs → content o n1 = content o n2 → n1 = n2)
  ∧ (∀ git prog rest n1 n2 w1 w2 o,
       GitBehaves git → valid_name n1 = true → valid_name n2 = true →
       Ready n1 w1 → Ready n2 w2 → o ∈ static_outputs →
       fs (run git (prog :: n1 :: rest) w1).2
         !! (project_root w1 n1 ++ output_path o n1)
       = fs (run git (prog :: n2 :: rest) w2).2
           !! (project_root w2 n2 ++ output_path o n2)).
Proof.
  split; [|split].
  - intros o n1 n2 Ho. unfold static_outputs in Ho.
    elems Ho; split; reflexivity.
  - intros o n1 n2 Ho. unfold named_outputs in Ho. elems Ho.
    + apply mainGoContent_inj.
    + apply makefileContent_inj.
  - intros git prog rest n1 n2 w1 w2 o Hgit Hn1 Hn2 Hr1 Hr2 Ho.
    rewrite !generated_file by done.
    unfold static_outputs in Ho. elems Ho; reflexivity.
Qed.

Lemma only_two_outputs_use_name_witness :
  fs (run git_demo ["gogo"; "alpha"] home).2
    !! (project_root home "alpha" ++ output_path ConfigStub "alpha")
  = fs (run git_demo ["gogo"; "beta"] home).2
      !! (project_root home "beta" ++ output_path ConfigStub "beta")
  ∧ (content BuildHelper "alpha" = content BuildHelper "beta" → "alpha" = "beta").
Proof.
  split.
  - apply (proj2 (proj2 only_two_outputs_use_name)
             git_demo "gogo" [] "alpha" "beta" home home ConfigStub
             git_demo_behaves eq_refl eq_refl
             (home_ready "alpha") (home_ready "beta")).
    unfold static_outputs. elems_here.
  - apply (proj1 (proj2 only_two_outputs_use_name) BuildHelper "alpha" "beta").
    unfold named_outputs. elems_here.
Defined.

(** C9: whatever the project name, the environment file gives APP_NAME
    the value myapi and LOG_FILE the value logs/myapi.log: the generator
    takes no name, and the file a run leaves for any name says so. *)
Theorem env_file_fixed_names :
  env_lookup "APP_NAME" envFileContent = Some "myapi"
  ∧ env_lookup "LOG_FILE" envFileContent = Some "logs/myapi.log"
  ∧ (∀ name, content EnvFile name = envFileContent)
  ∧ (∀ git prog name rest w,
       GitBehaves git → valid_name name = true → Ready name w →
       ∃ text,
         fs (run git (prog :: name :: rest) w).2
           !! (project_root w name ++ [".env"]) = Some (File text)
         ∧ env_lookup "APP_NAME" text = Some "myapi"
         ∧ env_lookup "LOG_FILE" text = Some "logs/myapi.log").
Proof.
  split; [reflexivity|]. split; [reflexivity|]. split; [reflexivity|].
  intros git prog name rest w Hgit Hname Hready. exists envFileContent.
  split; [|split; reflexivity].
  apply (generated_file git prog name rest w Hgit Hname Hready EnvFile).
Qed.

Lemma env_file_fixed_names_witness :
  ∃ text,
    fs (run git_demo ["gogo"; "shop"] home).2
      !! (project_root home "shop" ++ [".env"]) = Some (File text)
    ∧ env_lookup "APP_NAME" text = Some "myapi"
    ∧ env_lookup "LOG_FILE" text = Some "logs/myapi.log".
Proof.
  apply (proj2 (proj2 (proj2 env_file_fixed_names))
           git_demo "gogo" "shop" [] home
           git_demo_behaves eq_refl (home_ready "shop")).
Defined.








End Claims.


(** * Beyond the claims: how the pieces behave *)

Section CreateFile.




(** A diagnostic that ends with the text of a system error gets its line
    feed from the logger. *)
Lemma log_line_errno (s : string) (e : errno) :
  log_line (s +:+ errno_text e) = s +:+ errno_text e +:+ nl.
Proof.
  unfold log_line. destruct e; cbn [errno_text]; rewrite ends_with_app;
    by rewrite sapp_assoc.
Qed.

Lemma create_failure_line (path : string) (e : errno) :
  log_line (Sprintf "Failed to create file %s: %v"
              [path; Error (PathError "open" path e)])
  = "Failed to create file " +:+ path +:+ ": open " +:+ path +:+ ": "
      +:+ errno_text e +:+ nl.
Proof.
  cbn [Error].
  change (Sprintf _ [?a; ?b]) with ("Failed to create file " +:+ a +:+ ": " +:+ b +:+ "").
  rewrite sapp_nil_r.
  transitivity (log_line (("Failed to create file " +:+ path +:+ ": open "
                             +:+ path +:+ ": ") +:+ errno_text e)).
  - f_equal. rewrite !sapp_assoc. reflexivity.
  - rewrite log_line_errno, !sapp_assoc. reflexivity.
Qed.



(** X2: [createFile] makes no directories and opens no directory.  When a
    directory on the way to the path is missing or is a file, or the path
    itself is a directory, the process ends with status 1, the diagnostic
    names the path and the error, and the file tree is what it was. *)
Theorem createFile_fails (w : World) (path content : string) :
  (∀ e, resolve w path = inl e →
     createFile path content w
     = (Exited 1,
        mkWorld (cwd w) (fs w) (stdout w)
          (stderr w +:+ "Failed to create file " +:+ path +:+ ": open "
                    +:+ path +:+ ": " +:+ errno_text e +:+ nl)))
  ∧ (∀ p, resolve w path = inr p → fs w !! p = Some Dir →
       createFile path content w
       = (Exited 1,
          mkWorld (cwd w) (fs w) (stdout w)
            (stderr w +:+ "Failed to create file " +:+ path +:+ ": open "
                      +:+ path +:+ ": " +:+ errno_text EISDIR +:+ nl))).
Proof.
  split.
  - intros e Hres. unfold createFile. rewrite bind_eq. unfold os_Create.
    rewrite Hres. unfold log_Fatalf, log_Fatal. by rewrite create_failure_line.
  - intros p Hres Hp. unfold createFile. rewrite bind_eq. unfold os_Create.
    rewrite Hres, Hp. unfold log_Fatalf, log_Fatal. by rewrite create_failure_line.
Qed.

Lemma createFile_fails_witness :
  createFile "pkg/logger/logger.go" "package logger" home
  = (Exited 1,
     mkWorld (cwd home) (fs home) ""
       ("Failed to create file pkg/logger/logger.go: open pkg/logger/logger.go: "
        +:+ "no such file or directory" +:+ nl))
  ∧ createFile "../dev" "x" home
    = (Exited 1,
       mkWorld (cwd home) (fs home) ""
         ("Failed to create file ../dev: open ../dev: is a directory" +:+ nl)).
Proof.
  split.
  - apply (proj1 (createFile_fails home "pkg/logger/logger.go" "package logger")
             ENOENT eq_refl).
  - apply (proj2 (createFile_fails home "../dev" "x") ["home"; "dev"] eq_refl).
    vm_compute. reflexivity.
Defined.

End CreateFile.

Section RootFailures.

Lemma mkdir_failure_line (name : string) (e : errno) :
  log_line (Sprintf "Failed to create project directory: %v"
              [Error (PathError "mkdir" name e)])
  = "Failed to create project directory: mkdir " +:+ name +:+ ": "
      +:+ errno_text e +:+ nl.
Proof.
  cbn [Error].
  change (Sprintf _ [?x]) with ("Failed to create project directory: " +:+ x +:+ "").
  rewrite sapp_nil_r.
  transitivity (log_line (("Failed to create project directory: mkdir "
                             +:+ name +:+ ": ") +:+ errno_text e)).
  - f_equal. rewrite !sapp_assoc. reflexivity.
  - rewrite log_line_errno, !sapp_assoc. reflexivity.
Qed.

(** X3: a project name that cannot be walked to, because it is empty or a
    directory on the way to it is missing or is a file, ends the run at
    the first step: status 1, the diagnostic of [os.Mkdir] with the name
    and the system error, nothing printed on standard output and the file
    tree as it was.  No parent directory is made for the project. *)
Theorem unreachable_name_refused git (prog name : string) (rest : list string)
    (w : World) (e : errno) :
  resolve w name = inl e →
  run git (prog :: name :: rest) w
  = (1, mkWorld (cwd w) (fs w) (stdout w)
          (stderr w +:+ "Failed to create project directory: mkdir " +:+ name
                    +:+ ": " +:+ errno_text e +:+ nl)).
Proof.
  intros Hres. unfold run, main. cbn [length Nat.ltb Nat.leb nth]. cbv zeta.
  rewrite bind_eq. unfold os_Mkdir. rewrite Hres.
  rewrite bind_eq. unfold log_Fatalf, log_Fatal. by rewrite mkdir_failure_line.
Qed.

Lemma unreachable_name_refused_witness :
  run git_demo ["gogo"; ""] home
  = (1, mkWorld (cwd home) (fs home) ""
          ("Failed to create project directory: mkdir : "
           +:+ "no such file or directory" +:+ nl))
  ∧ run git_demo ["gogo"; "notes/app"] home_with_notes
    = (1, mkWorld (cwd home_with_notes) (fs home_with_notes) ""
            ("Failed to create project directory: mkdir notes/app: "
             +:+ "not a directory" +:+ nl)).
Proof.
  split.
  - apply (unreachable_name_refused git_demo "gogo" "" [] home ENOENT eq_refl).
  - apply (unreachable_name_refused git_demo "gogo" "notes/app" [] home_with_notes ENOTDIR).
    vm_compute. reflexivity.
Defined.

(** X4: a regular file under the project name is as much in the way as a
    directory: the run ends with status 1 and the diagnostic file exists,
    and the file keeps its content, as does everything else in the file tree. *)
Theorem existing_file_refused git (prog name : string) (rest : list string)
    (w : World) (p : list string) (content : string) :
  resolve w name = inr p → fs w !! p = Some (File content) →
  run git (prog :: name :: rest) w
  = (1, mkWorld (cwd w) (fs w) (stdout w)
          (stderr w +:+ "Failed to create project directory: mkdir " +:+ name
                    +:+ ": file exists" +:+ nl)).
Proof. intros Hres Hp. by eapply run_name_taken. Qed.

Lemma existing_file_refused_witness :
  run git_demo ["gogo"; "notes"] home_with_notes
  = (1, mkWorld (cwd home_with_notes) (fs home_with_notes) ""
          ("Failed to create project directory: mkdir notes: file exists" +:+ nl)).
Proof.
  apply (existing_file_refused git_demo "gogo" "notes" [] home_with_notes
           ["home"; "dev"; "notes"] "remember the milk" eq_refl).
  vm_compute. reflexivity.
Defined.

End RootFailures.

Section Scaffold.

Variables (prog name : string) (rest : list string) (w : World).
Hypothesis Hname : valid_name name = true.
Hypothesis Hready : Ready name w.

(** Up to the call of [initGit] the run does not depend on git: the
    directories and the files are made, and [main] goes on from there. *)
Lemma main_until_git :
  ∃ t, built w name (manifest_dirs name) outputs t
    ∧ ∀ git, main git (prog :: name :: rest) w
             = (_ ← initGit git name;
                fmt_Printf ("Project %s has been created successfully!" +:+ nl)
                           [name]) (set_fs t w).
Proof.
  pose proof (valid_name_plain _ Hname) as Hp.
  destruct (mkdir_root name w Hp Hready) as (t0 & Hmk & Hb0).
  destruct (make_dirs name w Hp Hready (manifest_dirs name) [] t0 Hb0
              (manifest_dirs_plain name Hp)) as (t1 & Hloop & Hb1).
  simpl app in Hb1.
  assert (Hfile : ∀ os t o, built w name (manifest_dirs name) os t → o ∉ os →
            ∃ t', createFile (join "/" (name :: output_path o name))
                    (content o name) (set_fs t w) = (Returned tt, set_fs t' w)
              ∧ built w name (manifest_dirs name) (os ++ [o]) t').
  { intros os t o Hb Ho. apply write_file; try done.
    - by apply output_path_plain.
    - intros r. by apply output_way.
    - intros d. by apply output_no_dir.
    - intros o' Ho' Heq. apply output_path_inj in Heq. by subst. }
  destruct (Hfile [] t1 EntryPoint Hb1) as (t2 & H2 & Hb2); [by intros ?%elem_of_nil|].
  destruct (Hfile _ t2 EnvFile Hb2) as (t3 & H3 & Hb3); [intros H; elems H; discriminate|].
  destruct (Hfile _ t3 IgnoreFile Hb3) as (t4 & H4 & Hb4); [intros H; elems H; discriminate|].
  destruct (Hfile _ t4 BuildHelper Hb4) as (t5 & H5 & Hb5); [intros H; elems H; discriminate|].
  destruct (Hfile _ t5 LoggerStub Hb5) as (t6 & H6 & Hb6); [intros H; elems H; discriminate|].
  destruct (Hfile _ t6 ConfigStub Hb6) as (t7 & H7 & Hb7); [intros H; elems H; discriminate|].
  simpl app in Hb7. exists t7. split; [exact Hb7|]. intros git.
  rewrite (output_file_name name Hp) in H2, H3, H4, H5, H6, H7.
  cbn [content] in H2, H3, H4, H5, H6, H7.
  unfold main. cbn [length Nat.ltb Nat.leb nth]. cbv zeta.
  rewrite bind_eq, Hmk, bind_eq. cbn [mret Proc_ret].
  rewrite dirs_manifest by done. cbv zeta in Hloop.
  rewrite bind_eq, Hloop.
  rewrite bind_eq, H2, bind_eq, H3, bind_eq, H4.
  rewrite bind_eq, H5, bind_eq, H6, bind_eq, H7.
  reflexivity.
Qed.

(** [initGit] on the finished scaffold: git is started in the project
    directory, and its answer decides. *)
Lemma initGit_built
    (git : list string → gmap (list string) node
           → option string * gmap (list string) node)
    (t : gmap (list string) node) :
  built w name (manifest_dirs name) outputs t →
  initGit git name (set_fs t w)
  = match git (project_root w name) t with
    | (Some msg, t') =>
        (Exited 1, mkWorld (cwd w) t' (stdout w)
                     (stderr w +:+ log_line ("Failed to initialize Git: " +:+ msg)))
    | (None, t') => (Returned tt, set_fs t' w)
    end.
Proof.
  intros Hb. pose proof (valid_name_plain _ Hname) as Hp.
  pose proof (built_cwd name w Hready _ _ _ Hb) as Hcwd.
  destruct Hb as (_ & Hroot & _).
  unfold initGit. rewrite bind_eq. unfold exec_git_init.
  change (resolve ?w' name) with (resolve w' (join "/" [name])).
  rewrite resolve_join; [|by repeat constructor|done].
  change (fs (set_fs t w)) with t. change (cwd (set_fs t w)) with (cwd w).
  rewrite namei_plain; [|by repeat constructor|].
  - unfold project_root. rewrite Hroot.
    destruct (git (cwd w ++ [name]) t) as [[msg|] t']; [|reflexivity].
    unfold log_Fatalf, log_Fatal. cbn [Error].
    change (Sprintf _ [?x]) with ("Failed to initialize Git: " +:+ x +:+ "").
    by rewrite sapp_nil_r.
  - intros r Hr Hne. destruct r as [|x r]; [by rewrite app_nil_r|].
    apply prefix_cons_inv_1 in Hr as ?. apply prefix_cons_inv_2 in Hr.
    apply prefix_nil_inv in Hr. by subst.
Qed.

(** The run, given what git answers on the finished scaffold. *)
Lemma run_by_git :
  ∃ t, built w name (manifest_dirs name) outputs t
    ∧ ∀ git, run git (prog :: name :: rest) w
             = match git (project_root w name) t with
               | (None, t') =>
                   (0, mkWorld (cwd w) t' (stdout w +:+ confirmation name) (stderr w))
               | (Some msg, t') =>
                   (1, mkWorld (cwd w) t' (stdout w)
                         (stderr w +:+ log_line ("Failed to initialize Git: " +:+ msg)))
               end.
Proof.
  destruct main_until_git as (t & Hb & Hmain). exists t. split; [done|].
  intros git. unfold run. rewrite Hmain, bind_eq, (initGit_built git t Hb).
  destruct (git (project_root w name) t) as [[msg|] t']; [reflexivity|].
  unfold fmt_Printf. cbn [cwd fs stdout stderr set_fs].
  by rewrite created_message.
Qed.

End Scaffold.

Section RunOutcomes.

Lemma prefix_snoc_cons (cur : list string) (a b : string) (p : list string) :
  (cur ++ [a]) `prefix_of` (cur ++ b :: p) → a = b.
Proof.
  intros [k Hk]. rewrite <- app_assoc in Hk. apply app_inv_head in Hk.
  by simplify_eq/=.
Qed.

(** X5: for a valid name that is free, everything up to [initGit] goes
    through whatever git is: git is started once, in the project
    directory, on a file tree that holds the whole manifest and is
    otherwise the old one.  What git answers there decides the run: on
    success status 0 and the confirmation on standard output; on failure
    status 1, the diagnostic with git's message on standard error, no
    confirmation, and the scaffold stays in the file tree as git left it. *)
Theorem run_decided_by_git (prog name : string) (rest : list string) (w : World) :
  valid_name name = true → Ready name w →
  ∃ t,
    t !! project_root w name = Some Dir
    ∧ (∀ q, ¬ project_root w name `prefix_of` q → t !! q = fs w !! q)
    ∧ (∀ p n, p ≠ [] →
         t !! (project_root w name ++ p) = Some n ↔ manifest_node name p n)
    ∧ (∀ git,
         run git (prog :: name :: rest) w
         = match git (project_root w name) t with
           | (None, t') =>
               (0, mkWorld (cwd w) t' (stdout w +:+ confirmation name) (stderr w))
           | (Some msg, t') =>
               (1, mkWorld (cwd w) t' (stdout w)
                     (stderr w +:+ log_line ("Failed to initialize Git: " +:+ msg)))
           end).
Proof.
  intros Hname Hready.
  destruct (run_by_git prog name rest w Hname Hready) as (t & Hb & Hrun).
  exists t. destruct Hb as (Hout & Hroot & Hin).
  split; [done|]. split; [done|]. split; [|done].
  intros p n Hp. unfold project_root. rewrite (Hin p n Hp).
  unfold manifest_node. split.
  - intros [?|(o & _ & ?)]; [by left|right; by exists o].
  - intros [?|(o & ?)]; [by left|right]. exists o. split; [|done].
    destruct o; elems_here.
Qed.

Lemma run_decided_by_git_witness :
  ∃ t,
    t !! project_root home "shop" = Some Dir
    ∧ run git_absent ["gogo"; "shop"] home
      = (1, mkWorld (cwd home) t ""
              ("Failed to initialize Git: exec: " +:+ dq +:+ "git" +:+ dq
               +:+ ": executable file not found in $PATH" +:+ nl)).
Proof.
  destruct (run_decided_by_git "gogo" "shop" [] home eq_refl (home_ready "shop"))
    as (t & Hroot & _ & _ & Hrun).
  exists t. split; [exact Hroot|]. rewrite (Hrun git_absent). reflexivity.
Defined.

(** X6: a successful run stays inside the project directory: the working
    directory is the same, and every path that is not the project
    directory or below it leads to what it led to before. *)
Theorem run_stays_in_project git (prog name : string) (rest : list string) (w : World) :
  GitBehaves git → valid_name name = true → Ready name w →
  (run git (prog :: name :: rest) w).1 = 0
  ∧ cwd (run git (prog :: name :: rest) w).2 = cwd w
  ∧ (∀ q, ¬ project_root w name `prefix_of` q →
       fs (run git (prog :: name :: rest) w).2 !! q = fs w !! q).
Proof.
  intros Hgit Hname Hready.
  destruct (main_success git prog name rest w Hgit Hname Hready)
    as (t & -> & _ & Hout & _).
  cbn [fst snd cwd fs]. by repeat split.
Qed.

Lemma run_stays_in_project_witness :
  fs (run git_demo ["gogo"; "shop"] home_with_notes).2 !! ["home"; "dev"; "notes"]
  = Some (File "remember the milk").
Proof.
  assert (Hready : Ready "shop" home_with_notes).
  { split; [reflexivity|]. intros p. unfold home_with_notes, home. cbn [fs cwd].
    rewrite !lookup_insert_ne by done. by apply lookup_singleton_ne. }
  rewrite (proj2 (proj2 (run_stays_in_project git_demo "gogo" "shop" []
                           home_with_notes git_demo_behaves eq_refl Hready))).
  - reflexivity.
  - intros Hq%prefix_of_prefixes. simpl in Hq. elems Hq; discriminate.
Defined.

(** X7: a run that fails at git leaves the project directory behind, so
    running it again does not get past [os.Mkdir]: where git cannot be
    started, the first run for a valid free name ends with status 1 after
    the scaffold is made, and the second one with status 1 and the
    diagnostic file exists, changing nothing. *)
Theorem failed_run_blocks_retry git (prog name : string) (rest : list string)
    (w : World) :
  (∀ d t, ∃ msg, git d t = (Some msg, t)) →
  valid_name name = true → Ready name w →
  ∃ w1,
    run git (prog :: name :: rest) w = (1, w1)
    ∧ stdout w1 = stdout w
    ∧ (∀ o, fs w1 !! (project_root w name ++ output_path o name)
            = Some (File (content o name)))
    ∧ run git (prog :: name :: rest) w1
      = (1, mkWorld (cwd w1) (fs w1) (stdout w1)
              (stderr w1 +:+ "Failed to create project directory: mkdir "
                         +:+ name +:+ ": file exists" +:+ nl)).
Proof.
  intros Hfail Hname Hready.
  destruct (run_by_git prog name rest w Hname Hready) as (t & Hb & Hrun).
  specialize (Hrun git). destruct (Hfail (project_root w name) t) as (msg & Hg).
  rewrite Hg in Hrun. set (w1 := mkWorld _ _ _ _) in Hrun.
  exists w1. split; [exact Hrun|].
  pose proof (built_cwd name w Hready _ _ _ Hb) as Hcwd.
  destruct Hb as (Hout & Hroot & Hin).
  pose proof (valid_name_plain _ Hname) as Hp.
  split; [done|]. split.
  - intros o. unfold project_root. cbn [fs w1].
    apply Hin; [by destruct o|]. right. exists o.
    split; [destruct o; elems_here|done].
  - apply (run_name_taken git prog name rest w1 (cwd w ++ [name]) Dir); [|done].
    change (resolve ?w' name) with (resolve w' (join "/" [name])).
    rewrite resolve_join; [|by repeat constructor|done].
    apply namei_plain; [by repeat constructor|]. cbn [fs cwd].
    intros r Hr Hne. destruct r as [|x r]; [by rewrite app_nil_r|].
    apply prefix_cons_inv_1 in Hr as ?. apply prefix_cons_inv_2 in Hr.
    apply prefix_nil_inv in Hr. by subst.
Qed.

Lemma failed_run_blocks_retry_witness :
  ∃ w1,
    run git_absent ["gogo"; "shop"] home = (1, w1)
    ∧ run git_absent ["gogo"; "shop"] w1
      = (1, mkWorld (cwd w1) (fs w1) (stdout w1)
              (stderr w1 +:+ "Failed to create project directory: mkdir "
                         +:+ "shop" +:+ ": file exists" +:+ nl)).
Proof.
  destruct (failed_run_blocks_retry git_absent "gogo" "shop" [] home)
    as (w1 & H1 & _ & _ & H2).
  - intros d t. eexists. reflexivity.
  - reflexivity.
  - apply home_ready.
  - exists w1. split; [exact H1|exact H2].
Defined.

(** X8: projects with different names do not get in each other's way: in
    a world where both names are free, the run for the second name after
    the run for the first succeeds as well and leaves everything in the
    first project directory as the first run left it. *)
Theorem projects_side_by_side git (prog n1 n2 : string) (rest : list string)
    (w : World) :
  GitBehaves git → valid_name n1 = true → valid_name n2 = true → n1 ≠ n2 →
  Ready n1 w → Ready n2 w →
  (run git (prog :: n1 :: rest) w).1 = 0
  ∧ (run git (prog :: n2 :: rest) (run git (prog :: n1 :: rest) w).2).1 = 0
  ∧ (∀ p, fs (run git (prog :: n2 :: rest) (run git (prog :: n1 :: rest) w).2).2
            !! (project_root w n1 ++ p)
          = fs (run git (prog :: n1 :: rest) w).2 !! (project_root w n1 ++ p))
  ∧ (∀ o, fs (run git (prog :: n2 :: rest) (run git (prog :: n1 :: rest) w).2).2
            !! (project_root w n2 ++ output_path o n2)
          = Some (File (content o n2))).
Proof.
  intros Hgit Hn1 Hn2 Hne Hr1 Hr2.
  destruct (main_success git prog n1 rest w Hgit Hn1 Hr1)
    as (t1 & Hrun1 & Hroot1 & Hout1 & _).
  rewrite Hrun1. cbn [fst snd].
  set (w1 := mkWorld (cwd w) t1 _ _).
  assert (Hr2' : Ready n2 w1).
  { destruct Hr2 as [Hc Hf]. split; cbn [fs cwd w1].
    - rewrite Hout1; [done|]. by apply not_prefix_snoc.
    - intros p. rewrite Hout1; [done|]. by intros ?%prefix_snoc_cons. }
  destruct (main_success git prog n2 rest w1 Hgit Hn2 Hr2')
    as (t2 & Hrun2 & _ & Hout2 & _).
  split; [done|]. split; [by rewrite Hrun2|]. split.
  - intros p. rewrite Hrun2. cbn [snd fs]. rewrite Hout2; [done|].
    cbn [cwd w1]. unfold project_root. rewrite <- app_assoc.
    intros ?%prefix_snoc_cons. by apply Hne.
  - intros o. apply (generated_file git prog n2 rest w1 Hgit Hn2 Hr2' o).
Qed.

Lemma projects_side_by_side_witness :
  (run git_demo ["gogo"; "api"] (run git_demo ["gogo"; "shop"] home).2).1 = 0
  ∧ fs (run git_demo ["gogo"; "api"] (run git_demo ["gogo"; "shop"] home).2).2
      !! (project_root home "shop" ++ ["Makefile"])
    = fs (run git_demo ["gogo"; "shop"] home).2
        !! (project_root home "shop" ++ ["Makefile"]).
Proof.
  destruct (projects_side_by_side git_demo "gogo" "shop" "api" [] home
              git_demo_behaves eq_refl eq_refl ltac:(discriminate)
              (home_ready "shop") (home_ready "api"))
    as (_ & H2 & H3 & _).
  split; [exact H2|exact (H3 ["Makefile"])].
Defined.

End RunOutcomes.

Section Streams.

Variable git : list string → gmap (list string) node
               → option string * gmap (list string) node.












End Streams.

Section StreamsClaim.


End StreamsClaim.

Section GeneratedTexts.

Lemma occurrences_char_app (c : ascii) (a b : string) :
  occurrences (String c "") (a +:+ b)
  = occurrences (String c "") a + occurrences (String c "") b.
Proof.
  induction a as [|x a IH]; [reflexivity|].
  rewrite sapp_cons. cbn [occurrences has_prefix]. rewrite IH. lia.
Qed.

Lemma occurrences_char_lacks (c : ascii) (s : string) :
  lacks c s = true → occurrences (String c "") s = 0.
Proof.
  induction s as [|x s IH]; [reflexivity|].
  rewrite lacks_cons. intros [Hx Hs]%andb_true_iff.
  apply negb_true_iff in Hx. rewrite Ascii.eqb_sym in Hx.
  cbn [occurrences has_prefix]. rewrite Hx, (IH Hs). reflexivity.
Qed.

(** X10: the config stub and the environment file fit together: for each
    key of the generated environment file the generated [Config] struct
    has a field tagged with that key, and it has no other tagged field. *)
Theorem config_binds_env_keys :
  Forall (λ key, containsb (mapstructure_tag key) configGoContent = true)
         (map fst (parse_env envFileContent))
  ∧ occurrences "mapstructure:" configGoContent
    = length (parse_env envFileContent).
Proof.
  split; [|vm_compute; reflexivity].
  change (map fst (parse_env envFileContent))
    with ["APP_NAME"; "SERVER_PORT"; "LOG_FILE"; "DB_USER"; "DB_PASSWORD";
          "DB_HOST"; "DB_PORT"; "DB_NAME"].
  repeat constructor; vm_compute; reflexivity.
Qed.

(** X11: the entry point is rendered by [Sprintf], so the escape in its
    Fatalf format comes out as a single percent sign: for every project
    name without a percent sign the entry point has exactly one, in the
    format that ends with %v.  The config stub is returned as written,
    and both its Fatalf formats keep the doubled sign. *)
Theorem percent_escape_rendered :
  (∀ name, contains ("Failed to initialize logger: %v" +:+ dq)
             (mainGoContent name))
  ∧ (∀ name, lacks "%" name = true → occurrences "%" (mainGoContent name) = 1)
  ∧ occurrences "%%v" configGoContent = 2
  ∧ occurrences "%" configGoContent = 4.
Proof.
  split; [|split; [|split; vm_compute; reflexivity]].
  - intros name. rewrite mainGoContent_lines.
    exists (unlines [
      "package main"; ""; "import (";
      tab +:+ dq +:+ "fmt" +:+ dq;
      tab +:+ dq +:+ "log" +:+ dq;
      "";
      tab +:+ dq +:+ name +:+ "/pkg/config" +:+ dq;
      tab +:+ dq +:+ name +:+ "/pkg/logger" +:+ dq;
      ")"; ""; "func main() {";
      tab +:+ "// Load configuration";
      tab +:+ "cfg := config.LoadConfig()";
      "";
      tab +:+ "// Initialize logger";
      tab +:+ "log, err := logger.NewLogger(cfg.LogFile)";
      tab +:+ "if err != nil {" ] +:+ tab +:+ tab +:+ "log.Fatalf(" +:+ dq).
    eexists. unfold unlines. cbn [foldr]. rewrite ?sapp_assoc. reflexivity.
  - intros name Hn. rewrite mainGoContent_lines. unfold unlines. cbn [foldr].
    rewrite ?sapp_assoc, !occurrences_char_app, !(occurrences_char_lacks _ name Hn).
    reflexivity.
Qed.

Lemma percent_escape_rendered_witness :
  lacks "%" "shop" = true ∧ occurrences "%" (mainGoContent "shop") = 1.
Proof.
  split; [reflexivity|].
  apply (proj1 (proj2 percent_escape_rendered) "shop"). reflexivity.
Defined.

End GeneratedTexts.
